(** * react-safe-hooks: the dependency-change and staleness detection engine

    A shallow embedding of the internal modules of react-safe-hooks
    ([internal/devOnly.ts], [internal/warn.ts], [internal/depsTracker.ts],
    [internal/closureTracker.ts]) and of the hooks that decide the properties
    stated below ([useSafeMemo], [useSafeContext], [useSafeState],
    [useSafeReducer]).

    JavaScript values are an inductive type; objects live in a heap and are
    compared by location, so that "same content, different identity" can be
    expressed.  Module-level mutable state (the set of warned keys, the
    console) is threaded explicitly. *)

From Stdlib Require Import ZArith Sorted Ascii.
From stdpp Require Import base decidable option list numbers strings pretty gmap.


(** ** JavaScript values *)

Module JS.

(** Heap locations: the identity of an object or of a function. *)
Abbreviation loc := positive.

(** IEEE-754 doubles in normal form.  A finite non-zero double is
    [±m·2^e] with [m] odd, so each number has exactly one representation and
    Leibniz equality on [number] is the SameValue comparison: [NaN] is equal
    to itself, [+0] and [-0] are distinct. *)
Inductive number :=
  | NaN
  | Zero (negative : bool)
  | Infinity (negative : bool)
  | Dyadic (negative : bool) (m : positive) (e : Z).

Inductive value :=
  | VUndefined
  | VNull
  | VBoolean (b : bool)
  | VNumber (x : number)
  | VBigInt (z : Z)
  | VString (s : string)
  | VSymbol (id : positive)
  | VObject (l : loc)
  | VFunction (l : loc).

#[global] Instance number_eq_dec : EqDecision number.
Proof. solve_decision. Defined.

#[global] Instance value_eq_dec : EqDecision value.
Proof. solve_decision. Defined.

#[global] Instance value_inhabited : Inhabited value := populate VUndefined.

(** The result of [typeof]. *)
Inductive type_tag :=
  | TUndefined | TObject | TBoolean | TNumber | TBigInt | TString | TSymbol
  | TFunction.

#[global] Instance type_tag_eq_dec : EqDecision type_tag.
Proof. solve_decision. Defined.

Definition typeof (v : value) : type_tag :=
  match v with
  | VUndefined => TUndefined
  | VNull => TObject
  | VBoolean _ => TBoolean
  | VNumber _ => TNumber
  | VBigInt _ => TBigInt
  | VString _ => TString
  | VSymbol _ => TSymbol
  | VObject _ => TObject
  | VFunction _ => TFunction
  end.

(** [Object.is(a, b)]: SameValue. *)
Definition Object_is (a b : value) : bool := bool_decide (a = b).

(** [x === y] on numbers: [NaN] differs from everything, the two zeros are
    equal. *)
Definition number_strict_equal (x y : number) : bool :=
  match x, y with
  | NaN, _ | _, NaN => false
  | Zero _, Zero _ => true
  | _, _ => bool_decide (x = y)
  end.

(** [a === b]. *)
Definition strict_equal (a b : value) : bool :=
  match a, b with
  | VNumber x, VNumber y => number_strict_equal x y
  | _, _ => bool_decide (a = b)
  end.

(** The number with the value of a natural number, as [arr.length] is. *)
Fixpoint odd_part (p : positive) : positive * Z :=
  match p with
  | xO q => let '(m, e) := odd_part q in (m, (e + 1)%Z)
  | _ => (p, 0%Z)
  end.

Definition number_of_nat (n : nat) : number :=
  match N.of_nat n with
  | N0 => Zero false
  | Npos p => let '(m, e) := odd_part p in Dyadic false m e
  end.

(** An own data property of an object.  Accessor properties and the
    prototype chain are not modelled: every read below is a read of an own
    property, or of a key that is absent. *)
Record property := Property {
  prop_key : string;
  prop_enumerable : bool;
  prop_value : value;
}.

(** The heap maps the location of an object to its own properties, in
    property order. *)
Abbreviation heap := (gmap loc (list property)).

Definition own_properties (h : heap) (v : value) : list property :=
  match v with
  | VObject l | VFunction l => default [] (h !! l)
  | _ => []
  end.

(** [Object.keys(o)]: the own enumerable string keys. *)
Definition Object_keys (h : heap) (v : value) : list string :=
  prop_key <$> filter (λ p, prop_enumerable p = true) (own_properties h v).

Definition find_property (ps : list property) (key : string) : option property :=
  List.find (λ p, bool_decide (prop_key p = key)) ps.

(** [Object.prototype.hasOwnProperty.call(o, key)]: enumerable or not. *)
Definition hasOwnProperty (h : heap) (v : value) (key : string) : bool :=
  bool_decide (is_Some (find_property (own_properties h v) key)).

(** [o[key]] for an object without inherited [key]. *)
Definition Get (h : heap) (v : value) (key : string) : value :=
  from_option prop_value VUndefined (find_property (own_properties h v) key).

(** The own properties of an object literal [{k1: v1, ...}]. *)
Definition object_literal (kvs : list (string * value)) : list property :=
  (λ kv, Property kv.1 true kv.2) <$> kvs.

(** The own properties of an array [[x0, x1, ...]]: the enumerable indices
    and the non-enumerable [length]. *)
Definition array_literal (xs : list value) : list property :=
  imap (λ i x, Property (pretty i) true x) xs
  ++ [Property "length" false (VNumber (number_of_nat (length xs)))].

(** A dependency list ([React.DependencyList]) is a JavaScript array read by
    index: [deps[i]] is [undefined] out of range. *)
Definition index (deps : list value) (i : nat) : value :=
  default VUndefined (deps !! i).

End JS.

Import JS.

(** ** internal/devOnly.ts *)

(** [process.env.NODE_ENV !== "production"], the initialiser of the module
    constant [__DEV__].  An unset variable reads as [undefined]. *)
Definition init___DEV__ (NODE_ENV : option string) : bool :=
  negb (bool_decide (NODE_ENV = Some "production")).

(** ** internal/warn.ts *)

Record WarningConfig := {
  componentName : option string;
  hookName : string;
  message : string;
  fix_ : option string;
  details : option string;
}.

(** The module-level [warnedKeys] set together with the output sink: the
    messages passed to [console.warn], oldest first. *)
Record WarnState := {
  warnedKeys : gset string;
  console : list string;
}.

Definition initial_WarnState : WarnState :=
  {| warnedKeys := ∅; console := [] |}.

(** Truthiness of an optional string: [undefined] and the empty string are
    falsy. *)
Definition truthy (s : option string) : option string :=
  match s with
  | Some EmptyString | None => None
  | Some s => Some s
  end.

Definition newline : string := String (Ascii.ascii_of_nat 10) EmptyString.

Definition createWarning (config : WarningConfig) : string :=
  let lines := ["⚠️ react-safe-hooks warning:"; EmptyString] in
  let lines :=
    match truthy (componentName config) with
    | Some c => lines ++ ["Component: " +:+ c]
    | None => lines
    end in
  let lines := lines ++ ["Hook: " +:+ hookName config] in
  let lines := lines ++ [EmptyString] in
  let lines := lines ++ [message config] in
  let lines :=
    match truthy (details config) with
    | Some d => lines ++ [d]
    | None => lines
    end in
  let lines :=
    match truthy (fix_ config) with
    | Some f => lines ++ [EmptyString; "Fix:"; f]
    | None => lines
    end in
  String.concat newline lines.
Arguments createWarning : simpl never.

Definition createWarningKey (hookName issueType : string)
    (componentName : option string) : string :=
  default "Unknown" (truthy componentName) +:+ ":" +:+ hookName +:+ ":" +:+ issueType.

Definition console_warn (message : string) (w : WarnState) : WarnState :=
  {| warnedKeys := warnedKeys w; console := console w ++ [message] |}.

Definition clearWarnings (w : WarnState) : WarnState :=
  {| warnedKeys := ∅; console := console w |}.

Section Internal.

(** The value the module constant [__DEV__] got when devOnly.ts was
    evaluated. *)
Variable __DEV__ : bool.

Definition warnOnce (key message : string) (w : WarnState) : WarnState :=
  if negb __DEV__ then w
  else if bool_decide (key ∈ warnedKeys w) then w
  else
    console_warn message
      {| warnedKeys := {[key]} ∪ warnedKeys w; console := console w |}.

Definition warn (message : string) (w : WarnState) : WarnState :=
  if negb __DEV__ then w else console_warn message w.

(** ** internal/closureTracker.ts *)

Definition EXCESSIVE_CHANGE_THRESHOLD : Z := 5.

Definition isExcessiveCallbackChange (changeCount renderCount : Z) : bool :=
  if negb __DEV__ then false
  else if (2 <? renderCount)%Z && (changeCount =? renderCount)%Z then true
  else if (EXCESSIVE_CHANGE_THRESHOLD <? changeCount)%Z then true
  else false.

(** ** internal/depsTracker.ts *)

Record DepsChangeResult := {
  hasChanges : bool;
  changedIndices : list nat;
  lengthChanged : bool;
  prevLength : option nat;
  currentLength : option nat;
}.

(** The [for (const key of keysA)] loop of [shallowEqual], leaving with
    [false] at the first key that fails. *)
Fixpoint shallowEqual_keys (h : heap) (a b : value) (keys : list string) : bool :=
  match keys with
  | [] => true
  | key :: keys =>
      if negb (hasOwnProperty h b key)
         || negb (Object_is (Get h a key) (Get h b key))
      then false
      else shallowEqual_keys h a b keys
  end.

Definition shallowEqual (h : heap) (a b : value) : bool :=
  if Object_is a b then true
  else if negb (bool_decide (typeof a = TObject))
          || strict_equal a VNull
          || negb (bool_decide (typeof b = TObject))
          || strict_equal b VNull
  then false
  else
    let keysA := Object_keys h a in
    let keysB := Object_keys h b in
    if negb (length keysA =? length keysB) then false
    else shallowEqual_keys h a b keysA.

(** The loop [for (let i = 0; i < maxLength; i++)] of
    [trackDependencyChanges] with [steps] iterations left. *)
Fixpoint changed_loop (currentDeps prevDeps : list value)
    (steps i : nat) (changedIndices : list nat) : list nat :=
  match steps with
  | O => changedIndices
  | S steps =>
      changed_loop currentDeps prevDeps steps (S i)
        (if negb (Object_is (index currentDeps i) (index prevDeps i))
         then changedIndices ++ [i]
         else changedIndices)
  end.

Definition trackDependencyChanges (currentDeps prevDeps : option (list value))
    : DepsChangeResult :=
  match currentDeps, prevDeps with
  | None, None =>
      {| hasChanges := false; changedIndices := []; lengthChanged := false;
         prevLength := None; currentLength := None |}
  | None, _ | _, None =>
      {| hasChanges := true; changedIndices := []; lengthChanged := true;
         prevLength := length <$> prevDeps;
         currentLength := length <$> currentDeps |}
  | Some currentDeps, Some prevDeps =>
      let lengthChanged := negb (length currentDeps =? length prevDeps) in
      let maxLength := length currentDeps `max` length prevDeps in
      let changedIndices := changed_loop currentDeps prevDeps maxLength 0 [] in
      {| hasChanges := (0 <? length changedIndices) || lengthChanged;
         changedIndices := changedIndices;
         lengthChanged := lengthChanged;
         prevLength := if lengthChanged then Some (length prevDeps) else None;
         currentLength :=
           if lengthChanged then Some (length currentDeps) else None |}
  end.

Definition detectDepsLengthChange (currentDeps prevDeps : option (list value))
    : bool :=
  match currentDeps, prevDeps with
  | None, None => false
  | None, _ | _, None => true
  | Some currentDeps, Some prevDeps =>
      negb (length currentDeps =? length prevDeps)
  end.

(** The loop [for (let i = 0; i < currentDeps.length; i++)] of
    [detectUnstableDeps]. *)
Fixpoint unstable_loop (h : heap) (currentDeps prevDeps : list value)
    (steps i : nat) (unstableIndices : list nat) : list nat :=
  match steps with
  | O => unstableIndices
  | S steps =>
      let current := index currentDeps i in
      let prev := index prevDeps i in
      unstable_loop h currentDeps prevDeps steps (S i)
        (if negb (strict_equal current prev)
            && bool_decide (typeof current = TObject)
            && negb (strict_equal current VNull)
            && bool_decide (typeof prev = TObject)
            && negb (strict_equal prev VNull)
         then
           if shallowEqual h current prev then unstableIndices ++ [i]
           else unstableIndices
         else unstableIndices)
  end.

(** An array is truthy, so [!prevDeps] holds for [undefined] only. *)
Definition detectUnstableDeps (h : heap) (currentDeps : list value)
    (prevDeps : option (list value)) : list nat :=
  match prevDeps with
  | Some prevDeps =>
      if negb __DEV__ then []
      else unstable_loop h currentDeps prevDeps (length currentDeps) 0 []
  | None => []
  end.

End Internal.

(** ** The running process

    devOnly.ts is evaluated once, when the library is first imported; the
    [const __DEV__] it exports keeps that value, whatever is assigned to
    [process.env.NODE_ENV] afterwards. *)

Record Process := {
  NODE_ENV : option string;
  module___DEV__ : bool;
  warn_state : WarnState;
}.

(** Importing the library in an environment. *)
Definition import_library (NODE_ENV : option string) : Process :=
  {| NODE_ENV := NODE_ENV;
     module___DEV__ := init___DEV__ NODE_ENV;
     warn_state := initial_WarnState |}.

(** [process.env.NODE_ENV = v]. *)
Definition set_NODE_ENV (v : option string) (p : Process) : Process :=
  {| NODE_ENV := v;
     module___DEV__ := module___DEV__ p;
     warn_state := warn_state p |}.

Definition on_warn_state (f : bool → WarnState → WarnState) (p : Process)
    : Process :=
  {| NODE_ENV := NODE_ENV p;
     module___DEV__ := module___DEV__ p;
     warn_state := f (module___DEV__ p) (warn_state p) |}.

(** The calls a client of warn.ts can make. *)
Inductive emitter_call :=
  | CallWarnOnce (key message : string)
  | CallWarn (message : string)
  | CallClearWarnings.

Definition emitter_step (__DEV__ : bool) (c : emitter_call) (w : WarnState)
    : WarnState :=
  match c with
  | CallWarnOnce key message => warnOnce __DEV__ key message w
  | CallWarn message => warn __DEV__ message w
  | CallClearWarnings => clearWarnings w
  end.

Definition emitter_run (__DEV__ : bool) (cs : list emitter_call)
    (w : WarnState) : WarnState :=
  foldl (λ w c, emitter_step __DEV__ c w) w cs.

Definition process_call (c : emitter_call) (p : Process) : Process :=
  on_warn_state (λ dev, emitter_step dev c) p.

(** Whether a call wrote to the sink. *)
Definition dispatched (before after : WarnState) : bool :=
  negb (length (console after) =? length (console before)).

(** The number of sink writes made by the [warnOnce] calls with key [key]
    in a run. *)
Fixpoint dispatches_for (__DEV__ : bool) (key : string)
    (cs : list emitter_call) (w : WarnState) : nat :=
  match cs with
  | [] => 0
  | c :: cs =>
      let w' := emitter_step __DEV__ c w in
      (match c with
       | CallWarnOnce k _ =>
           if bool_decide (k = key) && dispatched w w' then 1 else 0
       | _ => 0
       end) + dispatches_for __DEV__ key cs w'
  end.

Definition is_clear (c : emitter_call) : bool :=
  match c with CallClearWarnings => true | _ => false end.

(** ** hooks/useSafeMemo.ts *)

Module SafeMemo.

Record Options := {
  name : option string;
  warnOnRecompute : option bool;
  recomputeThreshold : option Z;
}.

Definition DEFAULT_RECOMPUTE_THRESHOLD : Z := 10.

(** [recomputeCountRef.current] and the state of warn.ts. *)
Record State := {
  recomputeCountRef : Z;
  warns : WarnState;
}.

(** The condition of the [if] in [wrappedFactory]. *)
Definition isExcessiveRecompute (warnOnRecompute : bool)
    (recomputeCount renderCount recomputeThreshold : Z) : bool :=
  warnOnRecompute
  && (recomputeThreshold <? recomputeCount)%Z
  && (recomputeCount =? renderCount)%Z.

Definition hookName_of (options : option Options) : string :=
  default "useSafeMemo" (options ≫= name).

Definition warnOnRecompute_of (options : option Options) : bool :=
  default true (options ≫= warnOnRecompute).

Definition recomputeThreshold_of (options : option Options) : Z :=
  default DEFAULT_RECOMPUTE_THRESHOLD (options ≫= recomputeThreshold).

Definition excessive_recompute_message (componentName hookName : string)
    (recomputeCount renderCount : Z) : string :=
  createWarning
    {| componentName := Some componentName;
       hookName := hookName;
       message := "Memoized value is recomputing on every render.";
       details := Some
         ("The factory has been called " +:+ pretty recomputeCount
          +:+ " times in " +:+ pretty renderCount
          +:+ " renders. This defeats the purpose of memoization.");
       fix_ := Some
         ("Check that your dependencies are stable. Avoid inline object/array/function "
          +:+ "literals in the dependency array. If recomputation is intentional, "
          +:+ "set warnOnRecompute: false or increase recomputeThreshold.") |}.

(** [wrappedFactory], up to the call of the user's [factory]: the closure
    built by the render with render count [renderCount], run by [useMemo]
    when it recomputes. *)
Definition wrappedFactory (__DEV__ : bool) (options : option Options)
    (componentName : string) (renderCount : Z) (st : State) : State :=
  let hookName := hookName_of options in
  let count := (recomputeCountRef st + 1)%Z in
  {| recomputeCountRef := count;
     warns :=
       if isExcessiveRecompute (warnOnRecompute_of options) count renderCount
            (recomputeThreshold_of options)
       then
         warnOnce __DEV__
           (createWarningKey hookName "excessive-recompute" (Some componentName))
           (excessive_recompute_message componentName hookName count renderCount)
           (warns st)
       else warns st |}.

End SafeMemo.

(** A call either returns or throws [new Error(message)]. *)
Inductive completion (A : Type) :=
  | Return (a : A)
  | Throw (message : string).
Arguments Return {A} a.
Arguments Throw {A} message.

(** [useComponentName()]: in development the name found in the stack trace,
    [stack_name], which is ["Unknown"] when the search fails. *)
Definition useComponentName (__DEV__ : bool) (stack_name : string) : string :=
  if negb __DEV__ then "Unknown" else stack_name.

(** ** hooks/useSafeContext.ts *)

Module SafeContext.

Record Options := {
  name : option string;
  throwOnMissing : option bool;
}.

Definition missing_provider_message (componentName hookName : string) : string :=
  createWarning
    {| componentName := Some componentName;
       hookName := hookName;
       message := "Context value is undefined. This usually means the component is not wrapped in a Provider.";
       details := Some
         "Make sure the component that uses this context is a descendant of the corresponding Provider.";
       fix_ := Some
         ("Wrap your component tree with the appropriate context provider, "
          +:+ "or check that you're importing the correct context.") |}.

(** [useSafeContext(context, options)], where [value] is what
    [useContext(context)] returned. *)
Definition useSafeContext (__DEV__ : bool) (stack_name : string)
    (value : value) (options : option Options) (w : WarnState)
    : completion JS.value * WarnState :=
  if negb __DEV__ then (Return value, w)
  else
    let componentName := useComponentName __DEV__ stack_name in
    let hookName := default "useSafeContext" (options ≫= name) in
    let throwOnMissing := default false (options ≫= throwOnMissing) in
    if strict_equal value VUndefined then
      let message := missing_provider_message componentName hookName in
      if throwOnMissing then (Throw message, w)
      else (Return value, warn __DEV__ message w)
    else (Return value, w).

End SafeContext.

(** ** hooks/useSafeState.ts and hooks/useSafeReducer.ts *)

(** One use of [useSafeState] or [useSafeReducer] in a component instance:
    the ref [isMountedRef], the arguments React's own [setState] or
    [dispatch] has been called with (oldest first), and the state of
    warn.ts. *)
Record HookInstance := {
  isMountedRef : bool;
  primitive_calls : list value;
  warns : WarnState;
}.

(** [useRef(true)] on the first render. *)
Definition first_render (w : WarnState) : HookInstance :=
  {| isMountedRef := true; primitive_calls := []; warns := w |}.

(** The effect [isMountedRef.current = true], run on mount. *)
Definition effect_mount (st : HookInstance) : HookInstance :=
  {| isMountedRef := true;
     primitive_calls := primitive_calls st;
     warns := warns st |}.

(** Its cleanup [isMountedRef.current = false], run on unmount. *)
Definition effect_unmount (st : HookInstance) : HookInstance :=
  {| isMountedRef := false;
     primitive_calls := primitive_calls st;
     warns := warns st |}.

(** React's [setState(value)] or [dispatch(action)]. *)
Definition primitive_call (v : value) (st : HookInstance) : HookInstance :=
  {| isMountedRef := isMountedRef st;
     primitive_calls := primitive_calls st ++ [v];
     warns := warns st |}.

Definition warn_in (__DEV__ : bool) (message : string) (st : HookInstance)
    : HookInstance :=
  {| isMountedRef := isMountedRef st;
     primitive_calls := primitive_calls st;
     warns := warn __DEV__ message (warns st) |}.

Module SafeState.

Record Options := { name : option string }.

Definition unmounted_message (componentName hookName : string) : string :=
  createWarning
    {| componentName := Some componentName;
       hookName := hookName;
       message := "Attempted to update state after component unmounted.";
       details := Some
         ("This usually happens when an async operation completes after "
          +:+ "the component has already been removed from the DOM.");
       fix_ := Some
         ("Use useIsMounted() to check if the component is still mounted "
          +:+ "before calling setState, or cancel the async operation in a cleanup function.") |}.

Definition safeSetState (__DEV__ : bool) (componentName hookName : string)
    (value : value) (st : HookInstance) : HookInstance :=
  if negb (isMountedRef st) then
    warn_in __DEV__ (unmounted_message componentName hookName) st
  else primitive_call value st.

(** The setter in the pair [useSafeState] returns. *)
Definition useSafeState_setter (__DEV__ : bool) (stack_name : string)
    (options : option Options) : value → HookInstance → HookInstance :=
  if negb __DEV__ then primitive_call
  else
    let componentName := useComponentName __DEV__ stack_name in
    let hookName := default "useSafeState" (options ≫= name) in
    safeSetState __DEV__ componentName hookName.

End SafeState.

(** *** The prototype chain and [String(x)] *)

(** The prototype of the objects that have one; an object that is not in
    the map has the prototype [null], as [Object.create(null)] has. *)
Abbreviation prototypes := (gmap loc loc).

Definition location (v : value) : option loc :=
  match v with
  | VObject l | VFunction l => Some l
  | _ => None
  end.

(** The property [key] of the object at [l], its own or the first one found
    along its prototypes.  A chain of prototypes has no cycle, so it is no
    longer than the map; [fuel] is the number of prototypes still to
    visit. *)
Fixpoint lookup_chain (h : heap) (protos : prototypes) (fuel : nat) (l : loc)
    (key : string) : option property :=
  match find_property (default [] (h !! l)) key with
  | Some p => Some p
  | None =>
      match fuel with
      | O => None
      | S fuel =>
          match protos !! l with
          | Some l' => lookup_chain h protos fuel l' key
          | None => None
          end
      end
  end.

(** [key in o], for an object. *)
Definition HasProperty (h : heap) (protos : prototypes) (v : value)
    (key : string) : bool :=
  match location v with
  | Some l => bool_decide (is_Some (lookup_chain h protos (size protos) l key))
  | None => false
  end.

(** [o[key]], for an object and a data property. *)
Definition GetV (h : heap) (protos : prototypes) (v : value) (key : string)
    : value :=
  match location v with
  | Some l =>
      from_option prop_value VUndefined
        (lookup_chain h protos (size protos) l key)
  | None => VUndefined
  end.

(** What the conversion to a string leaves to the host: the call of a
    function with a [this] and no argument, which returns a value or throws
    (its effects on the heap are not modelled), the digits of a number and
    the descriptive string of a symbol. *)
Record Host := {
  Call : heap → value → value → completion value;
  Number_toString : number → string;
  SymbolDescriptiveString : positive → string;
}.

Definition IsCallable (v : value) : bool :=
  match v with
  | VFunction _ => true
  | _ => false
  end.

Definition TypeError_object_to_primitive : string :=
  "TypeError: Cannot convert object to primitive value".

Definition TypeError_symbol_to_string : string :=
  "TypeError: Cannot convert a Symbol value to a string".

(** One round of OrdinaryToPrimitive: the method [name] is called when it is
    callable, and its result is taken when it is not an object. *)
Definition try_method (host : Host) (h : heap) (protos : prototypes)
    (o : value) (name : string) : completion (option value) :=
  let method := GetV h protos o name in
  if IsCallable method then
    match Call host h method o with
    | Return result =>
        if bool_decide (is_Some (location result)) then Return None
        else Return (Some result)
    | Throw e => Throw e
    end
  else Return None.

(** ToPrimitive with the hint string, for an object without a
    [Symbol.toPrimitive] method (keys that are symbols are not modelled):
    [toString], then [valueOf], then a TypeError. *)
Definition OrdinaryToPrimitive (host : Host) (h : heap) (protos : prototypes)
    (o : value) : completion value :=
  match try_method host h protos o "toString" with
  | Throw e => Throw e
  | Return (Some primitive) => Return primitive
  | Return None =>
      match try_method host h protos o "valueOf" with
      | Throw e => Throw e
      | Return (Some primitive) => Return primitive
      | Return None => Throw TypeError_object_to_primitive
      end
  end.

(** ToString of a value that is not an object. *)
Definition ToString_primitive (host : Host) (v : value) : completion string :=
  match v with
  | VUndefined => Return "undefined"
  | VNull => Return "null"
  | VBoolean b => Return (if b then "true" else "false")
  | VNumber x => Return (Number_toString host x)
  | VBigInt z => Return (pretty z)
  | VString s => Return s
  | VSymbol _ => Throw TypeError_symbol_to_string
  | VObject _ | VFunction _ => Throw TypeError_object_to_primitive
  end.

(** [String(v)]. *)
Definition String_ (host : Host) (h : heap) (protos : prototypes) (v : value)
    : completion string :=
  match v with
  | VSymbol id => Return (SymbolDescriptiveString host id)
  | VObject _ | VFunction _ =>
      match OrdinaryToPrimitive host h protos v with
      | Return primitive => ToString_primitive host primitive
      | Throw e => Throw e
      end
  | _ => ToString_primitive host v
  end.

Module SafeReducer.

Record Options := { name : option string }.

(** The text after ["Action type: "] in the warning; [String] may throw. *)
Definition action_type (host : Host) (h : heap) (protos : prototypes)
    (action : value) : completion string :=
  if bool_decide (typeof action = TObject)
     && negb (strict_equal action VNull)
     && HasProperty h protos action "type"
  then String_ host h protos (GetV h protos action "type")
  else Return "unknown".

Definition unmounted_message (componentName hookName : string)
    (action_type : string) : string :=
  createWarning
    {| componentName := Some componentName;
       hookName := hookName;
       message := "Attempted to dispatch action after component unmounted.";
       details := Some
         ("Action type: " +:+ action_type +:+ ". "
          +:+ "This usually happens when an async operation completes after "
          +:+ "the component has been removed from the DOM.");
       fix_ := Some
         ("Use useIsMounted() to check if the component is still mounted "
          +:+ "before dispatching, or cancel the async operation in a cleanup function.") |}.

(** The argument of [warn] is built first, so an error thrown by [String]
    leaves before anything is written. *)
Definition safeDispatch (__DEV__ : bool) (host : Host)
    (componentName hookName : string) (h : heap) (protos : prototypes)
    (action : value) (st : HookInstance) : completion unit * HookInstance :=
  if negb (isMountedRef st) then
    match action_type host h protos action with
    | Return text =>
        (Return tt,
         warn_in __DEV__ (unmounted_message componentName hookName text) st)
    | Throw e => (Throw e, st)
    end
  else (Return tt, primitive_call action st).

(** The dispatch in the pair [useSafeReducer] returns. *)
Definition useSafeReducer_dispatch (__DEV__ : bool) (host : Host)
    (stack_name : string) (options : option Options) (h : heap)
    (protos : prototypes)
    : value → HookInstance → completion unit * HookInstance :=
  if negb __DEV__ then λ action st, (Return tt, primitive_call action st)
  else
    let componentName := useComponentName __DEV__ stack_name in
    let hookName := default "useSafeReducer" (options ≫= name) in
    safeDispatch __DEV__ host componentName hookName h protos.

End SafeReducer.

(** ** What internal/index.ts exports, for a value of [__DEV__] *)

Record InternalExports := {
  export_shallowEqual : heap → value → value → bool;
  export_trackDependencyChanges :
    option (list value) → option (list value) → DepsChangeResult;
  export_detectUnstableDeps :
    heap → list value → option (list value) → list nat;
  export_warnOnce : string → string → WarnState → WarnState;
  export_warn : string → WarnState → WarnState;
}.

Definition internal_index (__DEV__ : bool) : InternalExports :=
  {| export_shallowEqual := shallowEqual;
     export_trackDependencyChanges := trackDependencyChanges;
     export_detectUnstableDeps := detectUnstableDeps __DEV__;
     export_warnOnce := warnOnce __DEV__;
     export_warn := warn __DEV__ |}.

(** ** Objects used in the examples *)

(** Two objects [{x: 1}], at the locations 1 and 2. *)
Definition heap_two_x1 : heap :=
  <[1%positive := object_literal [("x", VNumber (number_of_nat 1))]]>
    (<[2%positive := object_literal [("x", VNumber (number_of_nat 1))]]> ∅).

(** The object [{length: 1}] at location 1 and the array [[5]] at
    location 2. *)
Definition heap_length_array : heap :=
  <[1%positive := object_literal [("length", VNumber (number_of_nat 1))]]>
    (<[2%positive := array_literal [VNumber (number_of_nat 5)]]> ∅).

(** [Object.prototype] at location 9, with its [toString] and [valueOf]
    (the functions at 10 and 11); the action [{type: t}] at location 1, where
    [t], at location 2, is [Object.create(null)]; the action
    [{type: "increment"}] at location 3; and at location 4 an object without
    own properties whose prototype, at location 5, is [{type: "reset"}]. *)
Definition heap_actions : heap :=
  <[9%positive :=
      [Property "toString" false (VFunction 10);
       Property "valueOf" false (VFunction 11)]]>
    (<[1%positive := object_literal [("type", VObject 2)]]>
       (<[2%positive := []]>
          (<[3%positive := object_literal [("type", VString "increment")]]>
             (<[4%positive := []]>
                (<[5%positive := object_literal [("type", VString "reset")]]>
                   ∅))))).

Definition prototypes_actions : prototypes :=
  <[1%positive := 9%positive]>
    (<[3%positive := 9%positive]>
       (<[4%positive := 5%positive]> (<[5%positive := 9%positive]> ∅))).

(** An object is plain when it has no two properties with one key, as every
    object, and all its own properties are enumerable, as those of an object
    literal are. *)
Definition plain (h : heap) (v : value) : Prop :=
  NoDup (prop_key <$> own_properties h v)
  ∧ Forall (λ p, prop_enumerable p = true) (own_properties h v).

(** ** internal/closureTracker.ts, the rest *)

Record StaleClosureResult := {
  isStale : bool;
  description : option string;
}.

Definition stale_description (i : nat) : string :=
  "Dependency at index " +:+ pretty i +:+ " changed but callback was not updated. "
  +:+ "This may cause the callback to use stale values.".
Arguments stale_description : simpl never.

(** The loop of [detectStaleClosure], which returns at the first index whose
    two reads differ. *)
Fixpoint stale_loop (declaredDeps prevDeps : list value) (steps i : nat)
    : StaleClosureResult :=
  match steps with
  | O => {| isStale := false; description := None |}
  | S steps =>
      if negb (Object_is (index declaredDeps i) (index prevDeps i))
      then {| isStale := true; description := Some (stale_description i) |}
      else stale_loop declaredDeps prevDeps steps (S i)
  end.

Definition detectStaleClosure (__DEV__ : bool) (declaredDeps : list value)
    (prevDeps : option (list value)) (callbackChanged : bool)
    : StaleClosureResult :=
  if negb __DEV__ then {| isStale := false; description := None |}
  else
    match prevDeps with
    | Some prevDeps =>
        if negb callbackChanged
        then stale_loop declaredDeps prevDeps (length declaredDeps) 0
        else {| isStale := false; description := None |}
    | None => {| isStale := false; description := None |}
    end.

Module CallbackTracker.

(** [prevCallback] is a function or [undefined]. *)
Record t := {
  changeCount : Z;
  prevCallback : value;
  prevDeps : option (list value);
}.

End CallbackTracker.

Module CallbackStabilityResult.

Record t := {
  identityChanged : bool;
  changeCount : Z;
  isExcessive : bool;
}.

End CallbackStabilityResult.

Definition createCallbackTracker : CallbackTracker.t :=
  {| CallbackTracker.changeCount := 0;
     CallbackTracker.prevCallback := VUndefined;
     CallbackTracker.prevDeps := None |}.

(** The tracker is mutated in place: the result and the tracker after the
    call. *)
Definition updateCallbackTracker (__DEV__ : bool)
    (tracker : CallbackTracker.t) (currentCallback : value)
    (currentDeps : list value) (renderCount : Z)
    : CallbackStabilityResult.t * CallbackTracker.t :=
  let identityChanged :=
    negb (strict_equal (CallbackTracker.prevCallback tracker) currentCallback) in
  let changeCount :=
    if identityChanged then (CallbackTracker.changeCount tracker + 1)%Z
    else CallbackTracker.changeCount tracker in
  ({| CallbackStabilityResult.identityChanged := identityChanged;
      CallbackStabilityResult.changeCount := changeCount;
      CallbackStabilityResult.isExcessive :=
        isExcessiveCallbackChange __DEV__ changeCount renderCount |},
   {| CallbackTracker.changeCount := changeCount;
      CallbackTracker.prevCallback := currentCallback;
      CallbackTracker.prevDeps := Some currentDeps |}).

(** A component that passes, render after render, the callbacks [callbacks]
    to one tracker; the render count starts at [renderCount]. *)
Fixpoint tracker_run (__DEV__ : bool) (tracker : CallbackTracker.t)
    (renderCount : Z) (callbacks : list (value * list value))
    : list CallbackStabilityResult.t * CallbackTracker.t :=
  match callbacks with
  | [] => ([], tracker)
  | (callback, deps) :: callbacks =>
      let '(result, tracker) :=
        updateCallbackTracker __DEV__ tracker callback deps renderCount in
      let '(results, tracker) :=
        tracker_run __DEV__ tracker (renderCount + 1)%Z callbacks in
      (result :: results, tracker)
  end.

(** The number of entries of [callbacks] that are not [===] to the one
    before, [previous] being before the first. *)
Fixpoint identity_changes (previous : value) (callbacks : list (value * list value))
    : Z :=
  match callbacks with
  | [] => 0
  | (callback, _) :: callbacks =>
      ((if strict_equal previous callback then 0 else 1)
       + identity_changes callback callbacks)%Z
  end.

(** ** internal/depsTracker.ts, the rest *)

(** [`${n}`] for a length that may be [undefined]. *)
Definition template_length (n : option nat) : string :=
  from_option pretty "undefined" n.

Definition formatDepsChanges (changes : DepsChangeResult) : string :=
  if negb (hasChanges changes) then "No changes detected."
  else
    let parts := [] in
    let parts :=
      if lengthChanged changes
      then parts
           ++ ["Dependency array length changed from "
               +:+ template_length (prevLength changes) +:+ " to "
               +:+ template_length (currentLength changes) +:+ "."]
      else parts in
    let parts :=
      if 0 <? length (changedIndices changes)
      then
        let indices := String.concat ", " (pretty <$> changedIndices changes) in
        parts ++ ["Dependencies at indices [" +:+ indices +:+ "] changed."]
      else parts in
    String.concat " " parts.

(** ** internal/componentName.ts: the hooks that keep a ref *)

(** [usePrevious(value)]: the render returns [ref.current]; the effect,
    which React runs after the render is committed, stores [value].
    [None] is [undefined]. *)
Definition usePrevious {T : Type} (value : option T) (ref : option T)
    : option T * option T :=
  (ref, value).

(** [useRenderCount()]: the value returned and [countRef.current] after. *)
Definition useRenderCount (countRef : Z) : Z * Z :=
  let countRef := (countRef + 1)%Z in
  (countRef, countRef).

(** [useIsFirstRender()]: the value returned and [isFirstRef.current]
    after. *)
Definition useIsFirstRender (isFirstRef : bool) : bool * bool :=
  if isFirstRef then (true, false) else (false, isFirstRef).

(** What [usePrevious] returns in the successive renders of a component
    that passes [values], each render being committed. *)
Fixpoint usePrevious_run {T : Type} (ref : option T) (values : list (option T))
    : list (option T) :=
  match values with
  | [] => []
  | value :: values =>
      let '(previous, ref) := usePrevious value ref in
      previous :: usePrevious_run ref values
  end.

(** Whether the character [c] occurs in [s]. *)
Fixpoint has_char (c : Ascii.ascii) (s : string) : bool :=
  match s with
  | EmptyString => false
  | String c' s => bool_decide (c' = c) || has_char c s
  end.

(** ** The renders of the hooks

    A render of a hook is modelled together with its commit: the value
    [usePrevious] stores in its effect is in the state the render returns.
    What React's own hooks return ([useRef], [useCallback], [useMemo],
    [useEffect]) is an input. *)

(** [`${indices.join(", ")}`]. *)
Definition join_indices (indices : list nat) : string :=
  String.concat ", " (pretty <$> indices).

(** [v == null]: loosely equal to [null] are [null] and [undefined]. *)
Definition loose_equal_null (v : value) : bool :=
  match v with
  | VNull | VUndefined => true
  | _ => false
  end.

(** *** hooks/useSafeRef.ts *)

Module SafeRef.

Record Options := {
  name : option string;
  warnOnNullInit : option bool;
}.

Definition null_init_message (componentName hookName : string) : string :=
  createWarning
    {| componentName := Some componentName;
       hookName := hookName;
       message := "Ref initialized with null or undefined.";
       details := Some
         "This is usually fine for DOM refs, but may indicate a bug for other uses.";
       fix_ := Some
         ("If intentional, disable this warning with warnOnNullInit: false. "
          +:+ "Otherwise, provide an initial value.") |}.

(** The state is [countRef.current] of [useRenderCount] and the state of
    warn.ts; the ref itself is React's. *)
Definition useSafeRef (__DEV__ : bool) (stack_name : string)
    (initialValue : value) (options : option Options)
    (st : Z * WarnState) : Z * WarnState :=
  if negb __DEV__ then st
  else
    let componentName := useComponentName __DEV__ stack_name in
    let hookName := default "useSafeRef" (options ≫= name) in
    let '(renderCount, countRef) := useRenderCount st.1 in
    let warnOnNullInit := default false (options ≫= warnOnNullInit) in
    (countRef,
     if warnOnNullInit && (renderCount =? 1)%Z && loose_equal_null initialValue
     then
       warnOnce __DEV__
         (createWarningKey hookName "null-init" (Some componentName))
         (null_init_message componentName hookName) st.2
     else st.2).

End SafeRef.

(** *** hooks/useSafeCallback.ts *)

Module SafeCallback.

Record Options := {
  name : option string;
  warnOnStaleClosure : option bool;
}.

(** The refs of one use of the hook and the state of warn.ts. *)
Record State := {
  countRef : Z;
  previousRef : option (list value);
  prevCallbackRef : value;
  changeCountRef : Z;
  warns : WarnState;
}.

Definition first_state (w : WarnState) : State :=
  {| countRef := 0; previousRef := None; prevCallbackRef := VUndefined;
     changeCountRef := 0; warns := w |}.

Definition stale_message (componentName hookName : string)
    (description : option string) : string :=
  createWarning
    {| componentName := Some componentName;
       hookName := hookName;
       message := "Potential stale closure detected.";
       details := description;
       fix_ := Some
         ("Make sure all values used inside the callback are included in the "
          +:+ "dependency array. If you're intentionally using stale values, "
          +:+ "consider using a ref instead.") |}.

Definition unstable_message (componentName hookName : string)
    (unstableIndices : list nat) : string :=
  createWarning
    {| componentName := Some componentName;
       hookName := hookName;
       message := "Potentially unstable dependencies detected.";
       details := Some
         ("Dependencies at indices [" +:+ join_indices unstableIndices
          +:+ "] appear to be "
          +:+ "recreated on every render despite having the same content.");
       fix_ := Some
         ("Memoize objects, arrays, or callbacks in dependencies with useMemo/useCallback, "
          +:+ "or move them outside the component if they don't depend on props/state.") |}.

Definition excessive_message (componentName hookName : string)
    (changeCount renderCount : Z) : string :=
  createWarning
    {| componentName := Some componentName;
       hookName := hookName;
       message := "Callback is changing too frequently.";
       details := Some
         ("The callback has changed " +:+ pretty changeCount +:+ " times in "
          +:+ pretty renderCount +:+ " renders. "
          +:+ "This defeats the purpose of memoization and may cause unnecessary re-renders in child components.");
       fix_ := Some
         ("Check that all dependencies are stable. Avoid inline object/array/function "
          +:+ "literals in the dependency array. Consider if memoization is even needed.") |}.

Definition hookName_of (options : option Options) : string :=
  default "useSafeCallback" (options ≫= name).

(** A render of [useSafeCallback(callback, deps, options)], where
    [memoizedCallback] is what [useCallback(callback, deps)] returned. *)
Definition useSafeCallback (__DEV__ : bool) (stack_name : string) (h : heap)
    (memoizedCallback : value) (deps : list value) (options : option Options)
    (st : State) : State :=
  if negb __DEV__ then st
  else
    let componentName := useComponentName __DEV__ stack_name in
    let hookName := hookName_of options in
    let '(renderCount, countRef) := useRenderCount (countRef st) in
    let '(prevDeps, previousRef) := usePrevious (Some deps) (previousRef st) in
    let warnOnStaleClosure := default true (options ≫= warnOnStaleClosure) in
    let '(changeCount, prevCallback) :=
      if negb (strict_equal (prevCallbackRef st) memoizedCallback)
      then ((changeCountRef st + 1)%Z, memoizedCallback)
      else (changeCountRef st, prevCallbackRef st) in
    let w := warns st in
    let w :=
      match prevDeps with
      | Some prevDeps =>
          if warnOnStaleClosure then
            let staleResult :=
              detectStaleClosure __DEV__ deps (Some prevDeps)
                (1 <? changeCount)%Z in
            if isStale staleResult then
              warnOnce __DEV__
                (createWarningKey hookName "stale-closure" (Some componentName))
                (stale_message componentName hookName
                   (description staleResult)) w
            else w
          else w
      | None => w
      end in
    let w :=
      match prevDeps with
      | Some prevDeps =>
          let unstableIndices :=
            detectUnstableDeps __DEV__ h deps (Some prevDeps) in
          if (0 <? length unstableIndices) && (2 <? renderCount)%Z then
            warnOnce __DEV__
              (createWarningKey hookName "unstable-deps" (Some componentName))
              (unstable_message componentName hookName unstableIndices) w
          else w
      | None => w
      end in
    let w :=
      if isExcessiveCallbackChange __DEV__ changeCount renderCount then
        warnOnce __DEV__
          (createWarningKey hookName "excessive-changes" (Some componentName))
          (excessive_message componentName hookName changeCount renderCount) w
      else w in
    {| countRef := countRef; previousRef := previousRef;
       prevCallbackRef := prevCallback; changeCountRef := changeCount;
       warns := w |}.

(** The renders of one call site, with the callback, the dependency list
    and the heap of each. *)
Definition run (__DEV__ : bool) (stack_name : string)
    (options : option Options)
    (renders : list (heap * value * list value)) (st : State) : State :=
  foldl
    (λ st r, useSafeCallback __DEV__ stack_name r.1.1 r.1.2 r.2 options st)
    st renders.

(** The three keys of a call site. *)
Definition keys (stack_name : string) (options : option Options)
    : gset string :=
  {[ createWarningKey (hookName_of options) "stale-closure" (Some stack_name);
     createWarningKey (hookName_of options) "unstable-deps" (Some stack_name);
     createWarningKey (hookName_of options) "excessive-changes"
       (Some stack_name) ]}.

End SafeCallback.

(** *** hooks/useSafeEffect.ts *)

Module SafeEffect.

Record Options := {
  name : option string;
  warnOnMissingDeps : option bool;
  warnOnChangingDeps : option bool;
}.

(** [countRef.current], the ref of [usePrevious] and the state of
    warn.ts. *)
Record State := {
  countRef : Z;
  previousRef : option (list value);
  warns : WarnState;
}.

Definition no_deps_message (componentName hookName : string) : string :=
  createWarning
    {| componentName := Some componentName;
       hookName := hookName;
       message := "Effect has no dependency array.";
       details := Some
         "This effect will run after every render, which may cause performance issues.";
       fix_ := Some
         ("Add a dependency array. Use [] for effects that should only run once, "
          +:+ "or list all values from the component scope that the effect uses.") |}.

Definition length_message (componentName hookName : string)
    (changes : DepsChangeResult) : string :=
  createWarning
    {| componentName := Some componentName;
       hookName := hookName;
       message := "Dependency array length changed between renders.";
       details := Some (formatDepsChanges changes);
       fix_ := Some
         ("Ensure your dependency array has a stable length. "
          +:+ "Conditional dependencies should be handled inside the effect, not in the array.") |}.

Definition unstable_message (componentName hookName : string)
    (unstableIndices : list nat) : string :=
  createWarning
    {| componentName := Some componentName;
       hookName := hookName;
       message := "Potentially unstable dependencies detected.";
       details := Some
         ("Dependencies at indices [" +:+ join_indices unstableIndices
          +:+ "] appear to be "
          +:+ "recreated on every render despite having the same content.");
       fix_ := Some
         ("Memoize objects, arrays, or callbacks with useMemo/useCallback, "
          +:+ "or move them outside the component if they don't depend on props/state.") |}.

(** The checks of a render of [useSafeEffect(effect, deps, options)]; the
    two [useEffect] calls that follow them are React's. *)
Definition useSafeEffect (__DEV__ : bool) (stack_name : string) (h : heap)
    (deps : option (list value)) (options : option Options)
    (st : State) : State :=
  if negb __DEV__ then st
  else
    let componentName := useComponentName __DEV__ stack_name in
    let hookName := default "useSafeEffect" (options ≫= name) in
    let '(renderCount, countRef) := useRenderCount (countRef st) in
    let '(prevDeps, previousRef) := usePrevious deps (previousRef st) in
    let warnOnMissingDeps := default true (options ≫= warnOnMissingDeps) in
    let warnOnChangingDeps := default true (options ≫= warnOnChangingDeps) in
    let w := warns st in
    let w :=
      if negb (bool_decide (is_Some deps)) && warnOnMissingDeps
         && (renderCount =? 1)%Z
      then
        warnOnce __DEV__
          (createWarningKey hookName "no-deps" (Some componentName))
          (no_deps_message componentName hookName) w
      else w in
    let w :=
      match prevDeps, deps with
      | Some prevDeps, Some deps =>
          if warnOnChangingDeps then
            let changes := trackDependencyChanges (Some deps) (Some prevDeps) in
            let w :=
              if lengthChanged changes
              then warn __DEV__ (length_message componentName hookName changes) w
              else w in
            let unstableIndices :=
              detectUnstableDeps __DEV__ h deps (Some prevDeps) in
            if (0 <? length unstableIndices) && (2 <? renderCount)%Z then
              warnOnce __DEV__
                (createWarningKey hookName "unstable-deps" (Some componentName))
                (unstable_message componentName hookName unstableIndices) w
            else w
          else w
      | _, _ => w
      end in
    {| countRef := countRef; previousRef := previousRef; warns := w |}.

End SafeEffect.

(** *** hooks/useSafeMemo.ts, the render *)

Module SafeMemoRender.

(** [countRef.current], the ref of [usePrevious], and
    [recomputeCountRef.current] with the state of warn.ts. *)
Record State := {
  countRef : Z;
  previousRef : option (list value);
  memo : SafeMemo.State;
}.

Definition length_message (componentName hookName : string)
    (changes : DepsChangeResult) : string :=
  createWarning
    {| componentName := Some componentName;
       hookName := hookName;
       message := "Dependency array length changed between renders.";
       details := Some
         ("Length changed from " +:+ template_length (prevLength changes)
          +:+ " to " +:+ template_length (currentLength changes) +:+ ".");
       fix_ := Some
         ("Ensure your dependency array has a stable length. "
          +:+ "Conditional dependencies should be handled inside the factory, not in the array.") |}.

Definition unstable_message (componentName hookName : string)
    (unstableIndices : list nat) : string :=
  createWarning
    {| componentName := Some componentName;
       hookName := hookName;
       message := "Potentially unstable dependencies detected.";
       details := Some
         ("Dependencies at indices [" +:+ join_indices unstableIndices
          +:+ "] appear to be "
          +:+ "recreated on every render despite having the same content.");
       fix_ := Some
         ("Memoize objects, arrays, or callbacks with useMemo/useCallback, "
          +:+ "or move them outside the component if they don't depend on props/state.") |}.

(** A render of [useSafeMemo(factory, deps, options)]; [recomputes] tells
    whether [useMemo] runs the factory it is given in this render. *)
Definition useSafeMemo (__DEV__ : bool) (stack_name : string) (h : heap)
    (deps : list value) (options : option SafeMemo.Options)
    (recomputes : bool) (st : State) : State :=
  if negb __DEV__ then st
  else
    let componentName := useComponentName __DEV__ stack_name in
    let hookName := SafeMemo.hookName_of options in
    let '(renderCount, countRef) := useRenderCount (countRef st) in
    let '(prevDeps, previousRef) := usePrevious (Some deps) (previousRef st) in
    let w := SafeMemo.warns (memo st) in
    let w :=
      match prevDeps with
      | Some prevDeps =>
          let changes := trackDependencyChanges (Some deps) (Some prevDeps) in
          let w :=
            if lengthChanged changes then
              warnOnce __DEV__
                (createWarningKey hookName "deps-length" (Some componentName))
                (length_message componentName hookName changes) w
            else w in
          let unstableIndices :=
            detectUnstableDeps __DEV__ h deps (Some prevDeps) in
          if (0 <? length unstableIndices) && (2 <? renderCount)%Z then
            warnOnce __DEV__
              (createWarningKey hookName "unstable-deps" (Some componentName))
              (unstable_message componentName hookName unstableIndices) w
          else w
      | None => w
      end in
    let memo :=
      {| SafeMemo.recomputeCountRef := SafeMemo.recomputeCountRef (memo st);
         SafeMemo.warns := w |} in
    {| countRef := countRef; previousRef := previousRef;
       memo :=
         if recomputes
         then SafeMemo.wrappedFactory __DEV__ options componentName renderCount
                memo
         else memo |}.

Definition run (__DEV__ : bool) (stack_name : string)
    (options : option SafeMemo.Options)
    (renders : list (heap * list value * bool)) (st : State) : State :=
  foldl
    (λ st r, useSafeMemo __DEV__ stack_name r.1.1 r.1.2 options r.2 st)
    st renders.

(** The three keys of a call site. *)
Definition keys (stack_name : string) (options : option SafeMemo.Options)
    : gset string :=
  {[ createWarningKey (SafeMemo.hookName_of options) "deps-length"
       (Some stack_name);
     createWarningKey (SafeMemo.hookName_of options) "unstable-deps"
       (Some stack_name);
     createWarningKey (SafeMemo.hookName_of options) "excessive-recompute"
       (Some stack_name) ]}.

End SafeMemoRender.

(** * Properties *)

(** ** The examples of the documentation *)

(** The example in the comment of [trackDependencyChanges]. *)
Example trackDependencyChanges_doc_example :
  let changes :=
    trackDependencyChanges
      (Some [VString "a"; VString "b"; VString "c"])
      (Some [VString "a"; VString "oldB"; VString "c"]) in
  hasChanges changes = true ∧ changedIndices changes = [1].
Proof. split; reflexivity. Qed.

(** A list grows from two dependencies to three. *)
Example trackDependencyChanges_length_example :
  trackDependencyChanges
    (Some [VString "a"; VString "b"; VString "c"])
    (Some [VString "a"; VString "b"])
  = {| hasChanges := true; changedIndices := [2]; lengthChanged := true;
       prevLength := Some 2; currentLength := Some 3 |}.
Proof. reflexivity. Qed.

(** [NaN] is the same value as itself and the two zeros are not, while
    [===] has it the other way round. *)
Example Object_is_numbers :
  Object_is (VNumber NaN) (VNumber NaN) = true
  ∧ strict_equal (VNumber NaN) (VNumber NaN) = false
  ∧ Object_is (VNumber (Zero false)) (VNumber (Zero true)) = false
  ∧ strict_equal (VNumber (Zero false)) (VNumber (Zero true)) = true.
Proof. split_and!; reflexivity. Qed.

(** Two objects [{x: 1}] are shallowly equal and not the same value. *)
Example shallowEqual_two_x1 :
  shallowEqual heap_two_x1 (VObject 1) (VObject 2) = true
  ∧ Object_is (VObject 1) (VObject 2) = false.
Proof. split; vm_compute; reflexivity. Qed.

(** ** The threshold classifier *)

Lemma isExcessiveCallbackChange_spec changeCount renderCount :
  isExcessiveCallbackChange true changeCount renderCount = true
  ↔ (renderCount > 2 ∧ changeCount = renderCount)%Z ∨ (changeCount > 5)%Z.
Proof.
  unfold isExcessiveCallbackChange, EXCESSIVE_CHANGE_THRESHOLD. simpl.
  destruct (Z.ltb_spec 2 renderCount), (Z.eqb_spec changeCount renderCount),
    (Z.ltb_spec 5 changeCount); simpl; split; try done; try lia.
  all: intros _; lia.
Qed.

(** C4. With diagnostics enabled, for all integers [changeCount >= 0] and
    [totalCycles >= 0], [isExcessiveCallbackChange] answers [true] exactly
    when [totalCycles > 2] and [changeCount = totalCycles], or
    [changeCount > 5]; it answers [true] on (3, 3) and [false] on (2, 10). *)
Theorem C4_isExcessiveCallbackChange_iff (changeCount totalCycles : Z) :
  (0 ≤ changeCount)%Z → (0 ≤ totalCycles)%Z →
  (isExcessiveCallbackChange true changeCount totalCycles = true
   ↔ (totalCycles > 2 ∧ changeCount = totalCycles)%Z ∨ (changeCount > 5)%Z)
  ∧ isExcessiveCallbackChange true 3 3 = true
  ∧ isExcessiveCallbackChange true 2 10 = false.
Proof.
  intros _ _. split; [apply isExcessiveCallbackChange_spec | done].
Qed.

Lemma C4_witness_every_cycle :
  (0 ≤ 4)%Z ∧ (0 ≤ 4)%Z ∧ isExcessiveCallbackChange true 4 4 = true.
Proof.
  split; [lia|]. split; [lia|].
  apply (C4_isExcessiveCallbackChange_iff 4 4); lia.
Defined.

(** ** The excessive-recomputation rule of [useSafeMemo] *)

Lemma isExcessiveRecompute_true warnOnRecompute count total threshold :
  SafeMemo.isExcessiveRecompute warnOnRecompute count total threshold = true
  ↔ warnOnRecompute = true ∧ (count > threshold)%Z ∧ count = total.
Proof.
  unfold SafeMemo.isExcessiveRecompute.
  rewrite !andb_true_iff, Z.ltb_lt, Z.eqb_eq. intuition lia.
Qed.

Lemma wrappedFactory_count dev options componentName renderCount st :
  SafeMemo.recomputeCountRef
    (SafeMemo.wrappedFactory dev options componentName renderCount st)
  = (SafeMemo.recomputeCountRef st + 1)%Z.
Proof. done. Qed.

Lemma dispatched_true_iff before after :
  dispatched before after = true
  ↔ length (console after) ≠ length (console before).
Proof.
  unfold dispatched. rewrite negb_true_iff, Nat.eqb_neq. done.
Qed.

(** C5. With diagnostics enabled, a run of [wrappedFactory] writes the
    excessive-recomputation warning only when the recompute count it has
    reached is above the threshold and equal to the render count; the rule
    itself holds exactly then (unless [warnOnRecompute] is switched off); the
    threshold is 10 unless the options of the call site give another; the
    rule holds on (11, 11, 10) and fails on (11, 15, 10). *)
Theorem C5_excessive_recompute_rule :
  (∀ options componentName totalCycles st,
     let count := (SafeMemo.recomputeCountRef st + 1)%Z in
     dispatched (SafeMemo.warns st)
       (SafeMemo.warns
          (SafeMemo.wrappedFactory true options componentName totalCycles st))
     = true →
     (count > SafeMemo.recomputeThreshold_of options)%Z ∧ count = totalCycles)
  ∧ (∀ options componentName totalCycles st,
       let count := (SafeMemo.recomputeCountRef st + 1)%Z in
       let hookName := SafeMemo.hookName_of options in
       let key :=
         createWarningKey hookName "excessive-recompute" (Some componentName) in
       SafeMemo.warnOnRecompute_of options = true →
       (count > SafeMemo.recomputeThreshold_of options)%Z →
       count = totalCycles →
       key ∉ warnedKeys (SafeMemo.warns st) →
       console
         (SafeMemo.warns
            (SafeMemo.wrappedFactory true options componentName totalCycles st))
       = console (SafeMemo.warns st)
         ++ [SafeMemo.excessive_recompute_message componentName hookName
               count totalCycles])
  ∧ (∀ count totalCycles threshold,
       SafeMemo.isExcessiveRecompute true count totalCycles threshold = true
       ↔ (count > threshold)%Z ∧ count = totalCycles)
  ∧ SafeMemo.recomputeThreshold_of None = 10%Z
  ∧ (∀ name warnOnRecompute,
       SafeMemo.recomputeThreshold_of
         (Some {| SafeMemo.name := name;
                  SafeMemo.warnOnRecompute := warnOnRecompute;
                  SafeMemo.recomputeThreshold := None |}) = 10%Z)
  ∧ (∀ name warnOnRecompute threshold,
       SafeMemo.recomputeThreshold_of
         (Some {| SafeMemo.name := name;
                  SafeMemo.warnOnRecompute := warnOnRecompute;
                  SafeMemo.recomputeThreshold := Some threshold |}) = threshold)
  ∧ SafeMemo.warnOnRecompute_of None = true
  ∧ SafeMemo.isExcessiveRecompute true 11 11 10 = true
  ∧ SafeMemo.isExcessiveRecompute true 11 15 10 = false.
Proof.
  split; [|split; [|split; [|done]]].
  - intros options componentName totalCycles st count.
    unfold SafeMemo.wrappedFactory. simpl. fold count.
    destruct (SafeMemo.isExcessiveRecompute _ count _ _) eqn:E.
    + apply isExcessiveRecompute_true in E. intros _. lia.
    + rewrite dispatched_true_iff. done.
  - intros options componentName totalCycles st count hookName key Hw Hc Ht Hk.
    unfold SafeMemo.wrappedFactory.
    cbn [SafeMemo.warns SafeMemo.recomputeCountRef].
    fold count hookName key.
    rewrite (proj2 (isExcessiveRecompute_true _ _ _ _)) by done.
    unfold warnOnce. cbn [negb]. by rewrite bool_decide_eq_false_2.
  - intros count totalCycles threshold.
    rewrite isExcessiveRecompute_true. intuition.
Qed.

(** On its eleventh run in the eleventh render, with the default options
    and nothing warned yet, [wrappedFactory] writes to the sink. *)
Lemma C5_witness_eleventh_render :
  let st := {| SafeMemo.recomputeCountRef := 10;
               SafeMemo.warns := initial_WarnState |} in
  dispatched (SafeMemo.warns st)
    (SafeMemo.warns (SafeMemo.wrappedFactory true None "App" 11 st)) = true
  ∧ (11 > 10)%Z.
Proof.
  split; [reflexivity|].
  pose proof (proj1 C5_excessive_recompute_rule None "App" 11%Z
    {| SafeMemo.recomputeCountRef := 10;
       SafeMemo.warns := initial_WarnState |} eq_refl) as [H _].
  exact H.
Defined.

(** ** Deduplication in warn.ts *)

Lemma warnOnce_fresh key message w :
  key ∉ warnedKeys w →
  warnOnce true key message w
  = {| warnedKeys := {[key]} ∪ warnedKeys w;
       console := console w ++ [message] |}.
Proof. intros H. unfold warnOnce. simpl. by rewrite bool_decide_eq_false_2. Qed.

Lemma warnOnce_warned dev key message w :
  key ∈ warnedKeys w → warnOnce dev key message w = w.
Proof.
  intros H. unfold warnOnce. destruct dev; simpl; [|done].
  by rewrite bool_decide_eq_true_2.
Qed.

Lemma warnOnce_records key message w :
  key ∈ warnedKeys (warnOnce true key message w).
Proof.
  destruct (decide (key ∈ warnedKeys w)) as [H|H].
  - by rewrite warnOnce_warned.
  - rewrite warnOnce_fresh by done. simpl. set_solver.
Qed.

(** Without a reset the store only grows. *)
Lemma emitter_step_keeps dev c w key :
  is_clear c = false →
  key ∈ warnedKeys w → key ∈ warnedKeys (emitter_step dev c w).
Proof.
  intros Hc Hk. destruct c as [k m|m|]; simpl in *; [| |done].
  - unfold warnOnce. destruct dev; simpl; [|done].
    case_bool_decide; simpl; [done | set_solver].
  - unfold warn. by destruct dev.
Qed.

Lemma dispatches_for_warned dev key cs w :
  forallb (λ c, negb (is_clear c)) cs = true →
  key ∈ warnedKeys w → dispatches_for dev key cs w = 0.
Proof.
  revert w. induction cs as [|c cs IH]; intros w Hcs Hk; [done|].
  simpl in Hcs. apply andb_true_iff in Hcs as [Hc Hcs].
  apply negb_true_iff in Hc. simpl.
  rewrite IH by eauto using emitter_step_keeps.
  destruct c as [k m|m|]; try done.
  case_bool_decide as Hkey; [subst k|done].
  simpl. rewrite warnOnce_warned by done.
  unfold dispatched. by rewrite Nat.eqb_refl.
Qed.

Lemma dispatches_for_le_1 key cs w :
  forallb (λ c, negb (is_clear c)) cs = true →
  dispatches_for true key cs w ≤ 1.
Proof.
  revert w. induction cs as [|c cs IH]; intros w Hcs; [simpl; lia|].
  simpl in Hcs. apply andb_true_iff in Hcs as [Hc Hcs]. simpl.
  destruct c as [k m|m|]; simpl; try (by apply IH).
  case_bool_decide as Hkey; simpl; [subst k|by apply IH].
  destruct (dispatched w (warnOnce true key m w)); [|by apply IH].
  rewrite dispatches_for_warned; [lia | done | apply warnOnce_records].
Qed.

(** C6. With diagnostics enabled, in a run without [clearWarnings] the
    [warnOnce] calls with one key write to the sink at most once; a second
    [warnOnce] with the key of the first changes nothing; a [warnOnce] with a
    key that is not in the store writes its message, and so does any
    [warnOnce] that follows [clearWarnings].  In particular two calls with
    key ["k1"] write once, and a third one after a reset writes again. *)
Theorem C6_warnOnce_dedup :
  (∀ key cs w,
     forallb (λ c, negb (is_clear c)) cs = true →
     dispatches_for true key cs w ≤ 1)
  ∧ (∀ key m1 m2 w,
       warnOnce true key m2 (warnOnce true key m1 w) = warnOnce true key m1 w)
  ∧ (∀ key m w,
       key ∉ warnedKeys w →
       console (warnOnce true key m w) = console w ++ [m])
  ∧ (∀ key m w,
       console (warnOnce true key m (clearWarnings w)) = console w ++ [m])
  ∧ console
      (emitter_run true [CallWarnOnce "k1" "msg"; CallWarnOnce "k1" "msg"]
         initial_WarnState) = ["msg"]
  ∧ console
      (emitter_run true
         [CallWarnOnce "k1" "msg"; CallWarnOnce "k1" "msg";
          CallClearWarnings; CallWarnOnce "k1" "msg"]
         initial_WarnState) = ["msg"; "msg"].
Proof.
  split; [exact dispatches_for_le_1|].
  split; [intros; apply warnOnce_warned, warnOnce_records|].
  split; [intros key m w H; by rewrite warnOnce_fresh|].
  split; [|split; vm_compute; reflexivity].
  intros key m w. rewrite warnOnce_fresh; [done|]. simpl. set_solver.
Qed.

Lemma C6_witness_two_keys :
  dispatches_for true "k1"
    [CallWarnOnce "k1" "a"; CallWarn "b"; CallWarnOnce "k2" "c";
     CallWarnOnce "k1" "d"] initial_WarnState ≤ 1
  ∧ console (warnOnce true "k1" "msg" initial_WarnState) = ["msg"].
Proof.
  split.
  - apply (proj1 C6_warnOnce_dedup). reflexivity.
  - apply (proj1 (proj2 (proj2 C6_warnOnce_dedup)) "k1" "msg" initial_WarnState).
    set_solver.
Defined.

(** ** The dependency-list differ *)

Lemma index_lookup deps i v : deps !! i = Some v → index deps i = v.
Proof. unfold index. by intros ->. Qed.

Lemma index_out_of_range deps i : length deps ≤ i → index deps i = VUndefined.
Proof. intros H. unfold index. by rewrite lookup_ge_None_2. Qed.

Lemma Object_is_true a b : Object_is a b = true ↔ a = b.
Proof. unfold Object_is. apply bool_decide_eq_true. Qed.

Lemma Object_is_false a b : Object_is a b = false ↔ a ≠ b.
Proof. unfold Object_is. apply bool_decide_eq_false. Qed.

(** The loop appends, in increasing order, the indices at which the two
    reads differ. *)
Lemma changed_loop_filter currentDeps prevDeps steps i acc :
  changed_loop currentDeps prevDeps steps i acc
  = acc ++ filter (λ j, index currentDeps j ≠ index prevDeps j) (seq i steps).
Proof.
  revert i acc. induction steps as [|steps IH]; intros i acc; simpl.
  - by rewrite app_nil_r.
  - rewrite IH, filter_cons. unfold Object_is.
    case_bool_decide as E; simpl.
    + rewrite decide_False by (by intros ?). done.
    + rewrite decide_True by done. by rewrite <- app_assoc.
Qed.

Lemma changedIndices_filter currentDeps prevDeps :
  changedIndices (trackDependencyChanges (Some currentDeps) (Some prevDeps))
  = filter (λ j, index currentDeps j ≠ index prevDeps j)
      (seq 0 (length currentDeps `max` length prevDeps)).
Proof. simpl. by rewrite changed_loop_filter. Qed.

Lemma elem_of_changedIndices currentDeps prevDeps i :
  i ∈ changedIndices (trackDependencyChanges (Some currentDeps) (Some prevDeps))
  ↔ i < length currentDeps `max` length prevDeps
    ∧ index currentDeps i ≠ index prevDeps i.
Proof.
  rewrite changedIndices_filter, list_elem_of_filter, elem_of_seq.
  intuition lia.
Qed.

(** C1, as the code has it.  For two present dependency lists,
    [changedIndices] lists in increasing order the indices below the larger
    length at which [current[i]] and [previous[i]] are not the same value,
    where a read out of range gives [undefined].  So an index in range for
    one list only is listed exactly when the value there is not
    [undefined]; whenever there is such an index, [lengthChanged] and
    [hasChanges] are true. *)
Theorem C1_changedIndices_reads_undefined (currentDeps prevDeps : list value) :
  changedIndices (trackDependencyChanges (Some currentDeps) (Some prevDeps))
  = filter (λ i, index currentDeps i ≠ index prevDeps i)
      (seq 0 (length currentDeps `max` length prevDeps))
  ∧ (∀ i,
       i ∈ changedIndices
             (trackDependencyChanges (Some currentDeps) (Some prevDeps))
       ↔ i < length currentDeps `max` length prevDeps
         ∧ Object_is (index currentDeps i) (index prevDeps i) = false)
  ∧ (∀ i v,
       currentDeps !! i = Some v → length prevDeps ≤ i →
       i ∈ changedIndices
             (trackDependencyChanges (Some currentDeps) (Some prevDeps))
       ↔ v ≠ VUndefined)
  ∧ (∀ i v,
       prevDeps !! i = Some v → length currentDeps ≤ i →
       i ∈ changedIndices
             (trackDependencyChanges (Some currentDeps) (Some prevDeps))
       ↔ v ≠ VUndefined)
  ∧ (∀ i v,
       currentDeps !! i = Some v → length prevDeps ≤ i →
       lengthChanged
         (trackDependencyChanges (Some currentDeps) (Some prevDeps)) = true
       ∧ hasChanges
           (trackDependencyChanges (Some currentDeps) (Some prevDeps)) = true)
  ∧ (∀ i v,
       prevDeps !! i = Some v → length currentDeps ≤ i →
       lengthChanged
         (trackDependencyChanges (Some currentDeps) (Some prevDeps)) = true
       ∧ hasChanges
           (trackDependencyChanges (Some currentDeps) (Some prevDeps)) = true).
Proof.
  assert (length currentDeps ≠ length prevDeps →
    lengthChanged
      (trackDependencyChanges (Some currentDeps) (Some prevDeps)) = true
    ∧ hasChanges
        (trackDependencyChanges (Some currentDeps) (Some prevDeps)) = true)
    as Hlen.
  { intros Hne. cbn [trackDependencyChanges lengthChanged hasChanges].
    rewrite (proj2 (Nat.eqb_neq _ _) Hne). cbn [negb].
    by rewrite orb_true_r. }
  split; [apply changedIndices_filter|]. split; [|split; [|split; [|split]]].
  - intros i. rewrite elem_of_changedIndices, Object_is_false. done.
  - intros i v Hv Hi. rewrite elem_of_changedIndices.
    rewrite (index_lookup _ _ _ Hv), (index_out_of_range _ _ Hi).
    apply lookup_lt_Some in Hv. intuition lia.
  - intros i v Hv Hi. rewrite elem_of_changedIndices.
    rewrite (index_lookup _ _ _ Hv), (index_out_of_range _ _ Hi).
    apply lookup_lt_Some in Hv. intuition (try lia; congruence).
  - intros i v Hv%lookup_lt_Some Hi. apply Hlen. lia.
  - intros i v Hv%lookup_lt_Some Hi. apply Hlen. lia.
Qed.

Lemma C1_witness_extra_dependency :
  [VNumber (Zero false); VNull] !! 1 = Some VNull
  ∧ length [VNumber (Zero false)] ≤ 1
  ∧ 1 ∈ changedIndices
          (trackDependencyChanges (Some [VNumber (Zero false); VNull])
             (Some [VNumber (Zero false)])).
Proof.
  split; [reflexivity|]. split; [simpl; lia|].
  apply (proj1 (proj2 (proj2
    (C1_changedIndices_reads_undefined
       [VNumber (Zero false); VNull] [VNumber (Zero false)]))) 1 VNull).
  - reflexivity.
  - simpl. lia.
  - discriminate.
Defined.

(** The index 0 is in range for the current list only, and is not listed:
    the value there is [undefined], which is also what the read of the
    shorter list gives. *)
Lemma C1_counterexample_undefined_dependency :
  0 < length [VUndefined]
  ∧ length (@nil value) ≤ 0
  ∧ changedIndices (trackDependencyChanges (Some [VUndefined]) (Some [])) = []
  ∧ lengthChanged (trackDependencyChanges (Some [VUndefined]) (Some [])) = true.
Proof. repeat split; simpl; lia. Qed.

(** ** The global switch *)

Lemma emitter_step_disabled c w :
  console (emitter_step false c w) = console w.
Proof. by destruct c. Qed.

Lemma emitter_run_disabled cs w :
  console (emitter_run false cs w) = console w.
Proof.
  revert w. induction cs as [|c cs IH]; intros w; [done|].
  unfold emitter_run in *. simpl. by rewrite IH, emitter_step_disabled.
Qed.

Lemma detectUnstableDeps_disabled h currentDeps prevDeps :
  detectUnstableDeps false h currentDeps prevDeps = [].
Proof. by destruct prevDeps. Qed.

(** C2, as the code has it.  With [__DEV__] false no call of warn.ts writes
    to the sink, whatever the keys and messages, and the hooks that warn
    leave the sink as it is; [shallowEqual] and [trackDependencyChanges] are
    the same functions for both values of the flag.  [detectUnstableDeps] is
    gated: with [__DEV__] false it returns the empty list. *)
Theorem C2_disabled_flag :
  (∀ cs w, console (emitter_run false cs w) = console w)
  ∧ (∀ stack_name value options w,
       SafeContext.useSafeContext false stack_name value options w
       = (Return value, w))
  ∧ (∀ options componentName renderCount st,
       SafeMemo.warns
         (SafeMemo.wrappedFactory false options componentName renderCount st)
       = SafeMemo.warns st)
  ∧ (∀ componentName hookName v st,
       warns (SafeState.safeSetState false componentName hookName v st)
       = warns st)
  ∧ (∀ host componentName hookName h protos v st,
       warns
         (SafeReducer.safeDispatch false host componentName hookName h protos
            v st).2
       = warns st)
  ∧ export_shallowEqual (internal_index false)
    = export_shallowEqual (internal_index true)
  ∧ export_trackDependencyChanges (internal_index false)
    = export_trackDependencyChanges (internal_index true)
  ∧ (∀ h currentDeps prevDeps,
       export_detectUnstableDeps (internal_index false) h currentDeps prevDeps
       = []).
Proof.
  split; [exact emitter_run_disabled|].
  split; [done|].
  split.
  { intros. unfold SafeMemo.wrappedFactory. simpl.
    by destruct (SafeMemo.isExcessiveRecompute _ _ _ _). }
  split.
  { intros. unfold SafeState.safeSetState. by destruct (isMountedRef st). }
  split.
  { intros. unfold SafeReducer.safeDispatch.
    destruct (isMountedRef st); [done|]. cbn [negb].
    by destruct (SafeReducer.action_type _ _ _ _). }
  split; [done|]. split; [done|].
  exact detectUnstableDeps_disabled.
Qed.

(** Two distinct objects [{x: 1}] in successive dependency lists: index 0 is
    reported with [__DEV__] true and not with [__DEV__] false. *)
Lemma C2_counterexample_detectUnstableDeps_gated :
  export_detectUnstableDeps (internal_index true) heap_two_x1
    [VObject 1] (Some [VObject 2]) = [0]
  ∧ export_detectUnstableDeps (internal_index false) heap_two_x1
      [VObject 1] (Some [VObject 2]) = [].
Proof. split; vm_compute; reflexivity. Qed.

(** ** When the switch is read *)

Lemma process_call_set_NODE_ENV c v p :
  process_call c (set_NODE_ENV v p) = set_NODE_ENV v (process_call c p).
Proof. done. Qed.

Lemma process_calls_run cs p :
  warn_state (foldl (λ p c, process_call c p) p cs)
  = emitter_run (module___DEV__ p) cs (warn_state p).
Proof.
  revert p. induction cs as [|c cs IH]; intros p; [done|].
  simpl. rewrite IH. done.
Qed.

Lemma process_calls_import NODE_ENV cs :
  warn_state (foldl (λ p c, process_call c p) (import_library NODE_ENV) cs)
  = emitter_run (init___DEV__ NODE_ENV) cs initial_WarnState.
Proof. apply process_calls_run. Qed.

(** C3, as the code has it.  [__DEV__] is a constant computed from
    [NODE_ENV] when the library is imported.  Every call of [warnOnce] and
    [warn] tests that constant; an assignment to [NODE_ENV] made later
    changes neither the constant nor what any later call does. *)
Theorem C3_switch_fixed_at_import :
  (∀ NODE_ENV,
     module___DEV__ (import_library NODE_ENV) = init___DEV__ NODE_ENV)
  ∧ (∀ v p, module___DEV__ (set_NODE_ENV v p) = module___DEV__ p)
  ∧ (∀ c v p,
       process_call c (set_NODE_ENV v p) = set_NODE_ENV v (process_call c p))
  ∧ (∀ NODE_ENV cs,
       warn_state
         (foldl (λ p c, process_call c p) (import_library NODE_ENV) cs)
       = emitter_run (init___DEV__ NODE_ENV) cs initial_WarnState)
  ∧ (∀ message w, warn false message w = w)
  ∧ (∀ key message w, warnOnce false key message w = w)
  ∧ (∀ message w, console (warn true message w) = console w ++ [message]).
Proof.
  split; [done|]. split; [done|].
  split; [exact process_call_set_NODE_ENV|].
  split; [exact process_calls_import|]. done.
Qed.

(** The library is imported in development; then [NODE_ENV] is set to
    ["production"]; the call of [warn] that follows writes to the sink.
    Imported in production and switched to development, it writes
    nothing. *)
Lemma C3_counterexample_toggle_ignored :
  console (warn_state
    (process_call (CallWarn "late")
       (set_NODE_ENV (Some "production")
          (import_library (Some "development"))))) = ["late"]
  ∧ console (warn_state
      (process_call (CallWarn "late")
         (set_NODE_ENV (Some "development")
            (import_library (Some "production"))))) = [].
Proof. split; vm_compute; reflexivity. Qed.

(** ** The one escalation to an error *)

Lemma strict_equal_undefined v :
  strict_equal v VUndefined = true ↔ v = VUndefined.
Proof. destruct v; simpl; rewrite ?bool_decide_eq_true; done. Qed.

Lemma strict_equal_null v :
  strict_equal v VNull = true ↔ v = VNull.
Proof. destruct v; simpl; rewrite ?bool_decide_eq_true; done. Qed.

(** C7, as the code has it.  [useSafeContext] throws exactly when [__DEV__]
    is true, the context value is [undefined] and the option
    [throwOnMissing] is [true]; the error carries the warning text and
    nothing is written to the sink.  In development, with the option absent
    or [false], an [undefined] value is returned after one warning; a value
    other than [undefined] is returned with no warning; in production the
    value is returned whatever the option. *)
Theorem C7_useSafeContext_throws_iff
    (dev : bool) (stack_name : string) (value : value)
    (options : option SafeContext.Options) (w : WarnState) :
  ((∃ message,
      (SafeContext.useSafeContext dev stack_name value options w).1
      = Throw message)
   ↔ dev = true ∧ value = VUndefined
     ∧ options ≫= SafeContext.throwOnMissing = Some true)
  ∧ (dev = true → value = VUndefined →
     options ≫= SafeContext.throwOnMissing = Some true →
     SafeContext.useSafeContext dev stack_name value options w
     = (Throw
          (SafeContext.missing_provider_message stack_name
             (default "useSafeContext" (options ≫= SafeContext.name))), w))
  ∧ (dev = true → value = VUndefined →
     options ≫= SafeContext.throwOnMissing ≠ Some true →
     SafeContext.useSafeContext dev stack_name value options w
     = (Return VUndefined,
        console_warn
          (SafeContext.missing_provider_message stack_name
             (default "useSafeContext" (options ≫= SafeContext.name))) w))
  ∧ (value ≠ VUndefined →
     SafeContext.useSafeContext dev stack_name value options w
     = (Return value, w))
  ∧ (dev = false →
     SafeContext.useSafeContext dev stack_name value options w
     = (Return value, w)).
Proof.
  unfold SafeContext.useSafeContext.
  destruct dev; simpl.
  - destruct (decide (value = VUndefined)) as [->|Hv].
    + rewrite (proj2 (strict_equal_undefined _) eq_refl).
      destruct (options ≫= SafeContext.throwOnMissing) as [[]|] eqn:Eo;
        simpl; split_and!; try done; try (intros; congruence);
        (split; [intros [? ?]; simplify_eq | intros (? & ? & ?); simplify_eq]);
        eauto.
    + destruct (strict_equal value VUndefined) eqn:Eu.
      * by apply strict_equal_undefined in Eu.
      * split_and!; try done.
        split; [intros [? ?]; simplify_eq | intros (? & ? & ?); simplify_eq].
  - split_and!; try done.
    split; [intros [? ?]; simplify_eq | intros (? & ? & ?); simplify_eq].
Qed.

Lemma C7_witness_no_provider :
  ∃ message,
    (SafeContext.useSafeContext true "ThemedButton" VUndefined
       (Some {| SafeContext.name := Some "ThemeContext";
                SafeContext.throwOnMissing := Some true |})
       initial_WarnState).1 = Throw message.
Proof.
  apply (proj1 (C7_useSafeContext_throws_iff true "ThemedButton" VUndefined
    (Some {| SafeContext.name := Some "ThemeContext";
             SafeContext.throwOnMissing := Some true |})
    initial_WarnState)).
  repeat split; reflexivity.
Defined.

(** In a production build the context value is [undefined] and
    [throwOnMissing] is [true], and the call returns. *)
Lemma C7_counterexample_production_returns :
  SafeContext.useSafeContext false "ThemedButton" VUndefined
    (Some {| SafeContext.name := None;
             SafeContext.throwOnMissing := Some true |})
    initial_WarnState
  = (Return VUndefined, initial_WarnState).
Proof. reflexivity. Qed.

(** ** Updates after unmount *)

Lemma action_type_not_object host h protos action :
  typeof action ≠ TObject ∨ action = VNull
  ∨ HasProperty h protos action "type" = false →
  SafeReducer.action_type host h protos action = Return "unknown".
Proof.
  unfold SafeReducer.action_type. intros [H|[->|H]].
  - by rewrite bool_decide_eq_false_2.
  - done.
  - rewrite H. by rewrite andb_false_r.
Qed.

Lemma action_type_string host h protos l text :
  HasProperty h protos (VObject l) "type" = true →
  GetV h protos (VObject l) "type" = VString text →
  SafeReducer.action_type host h protos (VObject l) = Return text.
Proof.
  unfold SafeReducer.action_type. intros -> ->. done.
Qed.

(** C9. In development, a call of the setter of [useSafeState] or of the
    dispatch of [useSafeReducer] made while [isMountedRef] is false, as it
    is from the unmount on, never calls React's [setState] or [dispatch] and
    leaves the ref false.  The setter writes one warning.  The dispatch
    writes one warning when [String(action.type)] returns, as it does for an
    action without [type] and for a [type] that is a string; when [String]
    throws, the dispatch throws the same error and writes nothing: so it is
    for the action [{type: Object.create(null)}].  While the ref is true the
    call is React's own, with the same argument.  The two functions are what
    the hooks return in development. *)
Theorem C9_update_after_unmount
    (host : Host) (componentName hookName : string)
    (h : heap) (protos : prototypes) (v : value) (st : HookInstance) :
  (isMountedRef st = false →
   let st1 := SafeState.safeSetState true componentName hookName v st in
   let r2 :=
     SafeReducer.safeDispatch true host componentName hookName h protos v st in
   primitive_calls st1 = primitive_calls st
   ∧ console (warns st1)
     = console (warns st)
       ++ [SafeState.unmounted_message componentName hookName]
   ∧ isMountedRef st1 = false
   ∧ primitive_calls r2.2 = primitive_calls st
   ∧ isMountedRef r2.2 = false
   ∧ (∀ text,
        SafeReducer.action_type host h protos v = Return text →
        r2.1 = Return tt
        ∧ console (warns r2.2)
          = console (warns st)
            ++ [SafeReducer.unmounted_message componentName hookName text])
   ∧ (∀ e,
        SafeReducer.action_type host h protos v = Throw e →
        r2 = (Throw e, st)))
  ∧ (isMountedRef st = true →
     SafeState.safeSetState true componentName hookName v st
     = primitive_call v st
     ∧ SafeReducer.safeDispatch true host componentName hookName h protos v st
       = (Return tt, primitive_call v st)
     ∧ primitive_calls (primitive_call v st) = primitive_calls st ++ [v]
     ∧ warns (primitive_call v st) = warns st)
  ∧ isMountedRef (effect_unmount st) = false
  ∧ isMountedRef (effect_mount st) = true
  ∧ (∀ stack_name options,
       SafeState.useSafeState_setter true stack_name options
       = SafeState.safeSetState true stack_name
           (default "useSafeState" (options ≫= SafeState.name)))
  ∧ (∀ stack_name options,
       SafeReducer.useSafeReducer_dispatch true host stack_name options h
         protos
       = SafeReducer.safeDispatch true host stack_name
           (default "useSafeReducer" (options ≫= SafeReducer.name)) h protos)
  ∧ (typeof v ≠ TObject ∨ v = VNull ∨ HasProperty h protos v "type" = false →
     SafeReducer.action_type host h protos v = Return "unknown")
  ∧ (∀ l text,
       v = VObject l →
       HasProperty h protos v "type" = true →
       GetV h protos v "type" = VString text →
       SafeReducer.action_type host h protos v = Return text)
  ∧ SafeReducer.safeDispatch true host componentName hookName
      heap_actions prototypes_actions (VObject 1) (effect_unmount st)
    = (Throw TypeError_object_to_primitive, effect_unmount st)
  ∧ (SafeReducer.safeDispatch true host componentName hookName
       heap_actions prototypes_actions (VObject 4) (effect_unmount st)).1
    = Return tt
  ∧ console
      (warns
         (SafeReducer.safeDispatch true host componentName hookName
            heap_actions prototypes_actions (VObject 4) (effect_unmount st)).2)
    = console (warns st)
      ++ [SafeReducer.unmounted_message componentName hookName "reset"].
Proof.
  split; [|split; [|split_and!]].
  - intros H. unfold SafeState.safeSetState, SafeReducer.safeDispatch.
    rewrite H. cbn [negb].
    destruct (SafeReducer.action_type host h protos v) as [text|e];
      unfold warn_in, warn, console_warn;
      cbn [negb isMountedRef primitive_calls warns console fst snd];
      split_and!; try done.
    + by intros ? [= <-].
    + by intros ? [= <-].
  - intros H. unfold SafeState.safeSetState, SafeReducer.safeDispatch.
    rewrite H. cbn [negb primitive_call primitive_calls warns].
    by split_and!.
  - done.
  - done.
  - done.
  - done.
  - apply action_type_not_object.
  - intros l text ->. apply action_type_string.
  - reflexivity.
  - reflexivity.
  - unfold SafeReducer.safeDispatch.
    cbn [effect_unmount isMountedRef negb].
    assert (SafeReducer.action_type host heap_actions prototypes_actions
              (VObject 4) = Return "reset") as -> by reflexivity.
    unfold warn_in, warn, console_warn. by cbn [negb warns console snd].
Qed.

Lemma C9_witness_fetch_after_unmount :
  let mounted := effect_mount (first_render initial_WarnState) in
  let st := effect_unmount mounted in
  let host :=
    {| Call := λ _ _ _, Return (VString "[object Object]");
       Number_toString := λ _, "0";
       SymbolDescriptiveString := λ _, "Symbol()" |} in
  isMountedRef st = false
  ∧ primitive_calls
      (SafeState.safeSetState true "UserProfile" "useSafeState"
         (VString "data") st) = primitive_calls st
  ∧ primitive_calls
      (SafeReducer.safeDispatch true host "Counter" "useSafeReducer"
         heap_actions prototypes_actions (VObject 3) st).2
    = primitive_calls st
  ∧ console
      (warns
         (SafeReducer.safeDispatch true host "Counter" "useSafeReducer"
            heap_actions prototypes_actions (VObject 3) st).2)
    = console (warns st)
      ++ [SafeReducer.unmounted_message "Counter" "useSafeReducer"
            "increment"]
  ∧ isMountedRef mounted = true
  ∧ SafeState.safeSetState true "UserProfile" "useSafeState" (VString "data")
      mounted
    = primitive_call (VString "data") mounted.
Proof.
  intros mounted st host.
  pose proof (C9_update_after_unmount host "UserProfile"
    "useSafeState" ∅ ∅ (VString "data") st) as [Hst _].
  pose proof (C9_update_after_unmount host "Counter"
    "useSafeReducer" heap_actions prototypes_actions (VObject 3) st)
    as [Hreducer _].
  pose proof (C9_update_after_unmount host "UserProfile"
    "useSafeState" ∅ ∅ (VString "data") mounted) as (_ & Hmounted & _).
  split; [reflexivity|].
  split; [exact (proj1 (Hst eq_refl))|].
  destruct (Hreducer eq_refl) as (_ & _ & _ & Hcalls & _ & Htext & _).
  split; [exact Hcalls|].
  split; [exact (proj2 (Htext "increment" eq_refl))|].
  split; [reflexivity|].
  exact (proj1 (Hmounted eq_refl)).
Defined.

(** ** The unstable-reference detector *)

(** What the loop of [detectUnstableDeps] tests at index [j]. *)
Lemma elem_of_unstable_loop h currentDeps prevDeps steps i acc j :
  j ∈ unstable_loop h currentDeps prevDeps steps i acc
  ↔ j ∈ acc
    ∨ (i ≤ j < i + steps
       ∧ strict_equal (index currentDeps j) (index prevDeps j) = false
       ∧ typeof (index currentDeps j) = TObject
       ∧ strict_equal (index currentDeps j) VNull = false
       ∧ typeof (index prevDeps j) = TObject
       ∧ strict_equal (index prevDeps j) VNull = false
       ∧ shallowEqual h (index currentDeps j) (index prevDeps j) = true).
Proof.
  revert i acc. induction steps as [|steps IH]; intros i acc; simpl.
  - split; [by left | intros [?|[? _]]; [done | lia]].
  - rewrite IH. clear IH.
    assert (∀ P : Prop, (P → j ≠ i) →
      j ∈ acc ∨ (S i ≤ j < S i + steps ∧ P)
      ↔ j ∈ acc ∨ (i ≤ j < i + S steps ∧ P)) as Hskip.
    { intros P HP. split; (intros [?|[? Hj]]; [by left|]).
      - right. split; [lia|done].
      - right. split; [|done]. specialize (HP Hj). lia. }
    destruct (strict_equal (index currentDeps i) (index prevDeps i)) eqn:E1;
      simpl.
    { apply Hskip. intros (? & _) ->. congruence. }
    case_bool_decide as E2; simpl; cycle 1.
    { apply Hskip. intros (_ & ? & _) ->. congruence. }
    destruct (strict_equal (index currentDeps i) VNull) eqn:E3; simpl.
    { apply Hskip. intros (_ & _ & ? & _) ->. congruence. }
    case_bool_decide as E4; simpl; cycle 1.
    { apply Hskip. intros (_ & _ & _ & ? & _) ->. congruence. }
    destruct (strict_equal (index prevDeps i) VNull) eqn:E5; simpl.
    { apply Hskip. intros (_ & _ & _ & _ & ? & _) ->. congruence. }
    destruct (shallowEqual h (index currentDeps i) (index prevDeps i)) eqn:E6.
    + rewrite elem_of_app, list_elem_of_singleton. split.
      * intros [[?| -> ]|[? Hj]]; [by left | | right; split; [lia|done]].
        right. split; [lia|]. by split_and!.
      * intros [?|[? Hj]]; [by left; left|].
        destruct (decide (j = i)) as [->|]; [by left; right|].
        right. split; [lia|done].
    + apply Hskip. intros (_ & _ & _ & _ & _ & ?) ->. congruence.
Qed.

Lemma typeof_object_not_null v :
  typeof v = TObject → strict_equal v VNull = false → ∃ l, v = VObject l.
Proof.
  destruct v; simpl; intros Ht Hn; try discriminate. by eauto.
Qed.

(** C10. An index reported by [detectUnstableDeps] holds, in the current
    list and in the previous one, two distinct objects: values of type
    ["object"] that are not [null].  An index at which either list holds a
    function, a primitive value or [null] is never reported. *)
Theorem C10_unstable_only_objects
    (dev : bool) (h : heap) (currentDeps : list value)
    (prevDeps : option (list value)) (i : nat) :
  (i ∈ detectUnstableDeps dev h currentDeps prevDeps →
   ∃ previous l1 l2,
     prevDeps = Some previous
     ∧ currentDeps !! i = Some (VObject l1)
     ∧ previous !! i = Some (VObject l2)
     ∧ l1 ≠ l2
     ∧ typeof (index currentDeps i) = TObject
     ∧ typeof (index previous i) = TObject)
  ∧ (typeof (index currentDeps i) ≠ TObject ∨ index currentDeps i = VNull →
     i ∉ detectUnstableDeps dev h currentDeps prevDeps)
  ∧ (∀ previous,
       prevDeps = Some previous →
       typeof (index previous i) ≠ TObject ∨ index previous i = VNull →
       i ∉ detectUnstableDeps dev h currentDeps prevDeps).
Proof.
  assert (i ∈ detectUnstableDeps dev h currentDeps prevDeps →
    ∃ previous l1 l2,
      prevDeps = Some previous
      ∧ index currentDeps i = VObject l1
      ∧ index previous i = VObject l2
      ∧ l1 ≠ l2) as Hmain.
  { unfold detectUnstableDeps.
    destruct prevDeps as [previous|]; [|by intros ?%elem_of_nil].
    destruct dev; simpl; [|by intros ?%elem_of_nil].
    rewrite elem_of_unstable_loop.
    intros [?%elem_of_nil|(_ & Hne & Hc & Hcn & Hp & Hpn & _)]; [done|].
    destruct (typeof_object_not_null _ Hc Hcn) as [l1 E1].
    destruct (typeof_object_not_null _ Hp Hpn) as [l2 E2].
    exists previous, l1, l2. split_and!; try done.
    intros ->. rewrite E1, E2 in Hne. simpl in Hne.
    by rewrite bool_decide_eq_true_2 in Hne. }
  assert (∀ deps l, index deps i = VObject l → deps !! i = Some (VObject l))
    as Hlookup.
  { intros deps l. unfold index.
    destruct (deps !! i) as [v|]; simpl; [congruence | discriminate]. }
  split; [|split].
  - intros (previous & l1 & l2 & -> & E1 & E2 & Hl)%Hmain.
    exists previous, l1, l2. rewrite E1, E2. split_and!; auto.
  - intros Hc (previous & l1 & l2 & _ & E1 & _)%Hmain.
    rewrite E1 in Hc. by destruct Hc.
  - intros previous -> Hp (previous' & l1 & l2 & [= <-] & _ & E2 & _)%Hmain.
    rewrite E2 in Hp. by destruct Hp.
Qed.

Lemma C10_witness_recreated_object :
  ∃ previous l1 l2,
    Some [VObject 2] = Some previous
    ∧ [VObject 1] !! 0 = Some (VObject l1)
    ∧ previous !! 0 = Some (VObject l2)
    ∧ l1 ≠ l2
    ∧ typeof (index [VObject 1] 0) = TObject
    ∧ typeof (index previous 0) = TObject.
Proof.
  apply (proj1 (C10_unstable_only_objects true heap_two_x1
    [VObject 1] (Some [VObject 2]) 0)).
  vm_compute. left.
Defined.

(** ** The shallow comparator *)

Lemma find_property_is_Some ps key :
  is_Some (find_property ps key) ↔ key ∈ prop_key <$> ps.
Proof.
  unfold find_property. induction ps as [|p ps IH]; simpl.
  - rewrite elem_of_nil. split; [by intros [? ?] | done].
  - rewrite elem_of_cons. case_bool_decide as E.
    + split; [by left | by eauto].
    + rewrite IH. split; [by right | by intros [?|?]].
Qed.

Lemma hasOwnProperty_true h v key :
  hasOwnProperty h v key = true ↔ key ∈ prop_key <$> own_properties h v.
Proof.
  unfold hasOwnProperty. by rewrite bool_decide_eq_true, find_property_is_Some.
Qed.

Lemma shallowEqual_keys_true h a b keys :
  shallowEqual_keys h a b keys = true
  ↔ ∀ key, key ∈ keys →
      hasOwnProperty h b key = true ∧ Get h a key = Get h b key.
Proof.
  induction keys as [|k keys IH]; simpl.
  - split; [by intros _ ? ?%elem_of_nil | done].
  - destruct (hasOwnProperty h b k) eqn:Eh; simpl.
    + destruct (Object_is (Get h a k) (Get h b k)) eqn:Eo; simpl.
      * apply Object_is_true in Eo. rewrite IH. split.
        -- intros H key [->|?]%elem_of_cons; [done | by apply H].
        -- intros H key ?. apply H. by right.
      * apply Object_is_false in Eo. split; [done|].
        intros H. destruct (H k) as [_ ?]; [by left | done].
    + split; [done|]. intros H. destruct (H k) as [? _]; [by left|congruence].
Qed.

Lemma Object_keys_plain h v :
  plain h v → Object_keys h v = prop_key <$> own_properties h v.
Proof.
  intros [_ Hall]. unfold Object_keys. f_equal.
  induction Hall as [|p ps Hp Hall IH]; [done|].
  by rewrite filter_cons, decide_True, IH.
Qed.

(** One direction of the symmetry, for objects whose own properties are all
    enumerable. *)
Lemma shallowEqual_plain_flip h a b :
  plain h a → plain h b →
  shallowEqual h a b = true → shallowEqual h b a = true.
Proof.
  intros Ha Hb. unfold shallowEqual.
  destruct (Object_is a b) eqn:Eab.
  { apply Object_is_true in Eab as ->. intros _.
    by rewrite (proj2 (Object_is_true b b) eq_refl). }
  destruct (Object_is b a) eqn:Eba.
  { done. }
  destruct (bool_decide (typeof a = TObject)), (strict_equal a VNull),
    (bool_decide (typeof b = TObject)), (strict_equal b VNull);
    simpl; try done.
  rewrite !Object_keys_plain by done.
  destruct (Nat.eqb_spec (length (prop_key <$> own_properties h a))
              (length (prop_key <$> own_properties h b))) as [Hlen|];
    simpl; [|done].
  rewrite <- Hlen, Nat.eqb_refl. simpl.
  rewrite !shallowEqual_keys_true. intros H.
  assert ((prop_key <$> own_properties h a)
          ≡ₚ (prop_key <$> own_properties h b)) as Hperm.
  { apply submseteq_length_Permutation; [|lia].
    apply NoDup_submseteq; [apply Ha|].
    intros key Hkey. apply hasOwnProperty_true, H, Hkey. }
  intros key Hkey. rewrite <- Hperm in Hkey. split.
  - by apply hasOwnProperty_true.
  - symmetry. by apply H.
Qed.

(** On objects whose own properties are all enumerable [shallowEqual] is
    symmetric. *)
Lemma shallowEqual_plain_sym h a b :
  plain h a → plain h b → shallowEqual h a b = shallowEqual h b a.
Proof.
  intros Ha Hb.
  destruct (shallowEqual h a b) eqn:E1, (shallowEqual h b a) eqn:E2; try done.
  - apply shallowEqual_plain_flip in E1; [congruence | done | done].
  - apply shallowEqual_plain_flip in E2; [congruence | done | done].
Qed.

Lemma shallowEqual_plain_sym_x1 :
  plain heap_two_x1 (VObject 1) ∧ plain heap_two_x1 (VObject 2)
  ∧ shallowEqual heap_two_x1 (VObject 1) (VObject 2)
    = shallowEqual heap_two_x1 (VObject 2) (VObject 1).
Proof.
  assert (plain heap_two_x1 (VObject 1)) as H1.
  { split; vm_compute; repeat constructor. by intros ?%elem_of_nil. }
  assert (plain heap_two_x1 (VObject 2)) as H2.
  { split; vm_compute; repeat constructor. by intros ?%elem_of_nil. }
  split; [done|]. split; [done|]. by apply shallowEqual_plain_sym.
Defined.

(** C8, at the input where the code departs from it.  [{length: 1}] and
    the array [[5]] each have one enumerable key; the array also has an own,
    non-enumerable [length], equal to 1.  [shallowEqual] of the object and
    the array is [true]; of the array and the object, [false]. *)
Theorem C8_shallowEqual_length_array :
  Object_keys heap_length_array (VObject 1) = ["length"]
  ∧ Object_keys heap_length_array (VObject 2) = ["0"]
  ∧ hasOwnProperty heap_length_array (VObject 2) "length" = true
  ∧ Get heap_length_array (VObject 2) "length" = VNumber (number_of_nat 1)
  ∧ shallowEqual heap_length_array (VObject 1) (VObject 2) = true
  ∧ shallowEqual heap_length_array (VObject 2) (VObject 1) = false.
Proof. split_and!; vm_compute; reflexivity. Qed.

(** * Further properties of the internal modules *)

(** ** More on the dependency-list differ *)

Lemma changedIndices_nil_iff currentDeps prevDeps :
  changedIndices (trackDependencyChanges (Some currentDeps) (Some prevDeps)) = []
  ↔ ∀ i, index currentDeps i = index prevDeps i.
Proof.
  split.
  - intros Hnil i.
    destruct (decide (i < length currentDeps `max` length prevDeps)) as [Hi|Hi].
    + destruct (decide (index currentDeps i = index prevDeps i)) as [|Hne];
        [done|].
      assert (i ∈ changedIndices
        (trackDependencyChanges (Some currentDeps) (Some prevDeps))) as Hin
        by (by apply elem_of_changedIndices).
      rewrite Hnil in Hin. by apply elem_of_nil in Hin.
    + rewrite !index_out_of_range by lia. done.
  - intros Heq. apply elem_of_nil_inv. intros i Hi.
    apply elem_of_changedIndices in Hi as [_ Hi]. by apply Hi.
Qed.

Lemma hasChanges_present_false_iff (c p : list value) :
  hasChanges (trackDependencyChanges (Some c) (Some p)) = false ↔ c = p.
Proof.
  cbn [trackDependencyChanges hasChanges].
  rewrite orb_false_iff, negb_false_iff, Nat.eqb_eq, Nat.ltb_ge.
  split.
  - intros [Hnil Hlen].
    assert (changedIndices (trackDependencyChanges (Some c) (Some p)) = [])
      as Hc.
    { apply length_zero_iff_nil. simpl. lia. }
    rewrite changedIndices_nil_iff in Hc.
    apply list_eq. intros i. specialize (Hc i). unfold index in Hc.
    destruct (c !! i) as [x|] eqn:Ex, (p !! i) as [y|] eqn:Ey; simpl in Hc;
      try congruence.
    + apply lookup_lt_Some in Ex. apply lookup_ge_None in Ey. lia.
    + apply lookup_lt_Some in Ey. apply lookup_ge_None in Ex. lia.
  - intros ->. split; [|done].
    assert (changedIndices (trackDependencyChanges (Some p) (Some p)) = [])
      as Hc by (by apply changedIndices_nil_iff).
    simpl in Hc. rewrite Hc. simpl. lia.
Qed.

Lemma hasChanges_false_iff (currentDeps prevDeps : option (list value)) :
  hasChanges (trackDependencyChanges currentDeps prevDeps) = false
  ↔ currentDeps = prevDeps.
Proof.
  destruct currentDeps as [c|], prevDeps as [p|]; try (by split).
  rewrite hasChanges_present_false_iff. split; congruence.
Qed.

(** [hasChanges] is false exactly when the two arguments are both absent, or
    are lists of the same length holding the same values; then no index is
    listed and no length is reported. *)
Theorem trackDependencyChanges_no_change_iff
    (currentDeps prevDeps : option (list value)) :
  (hasChanges (trackDependencyChanges currentDeps prevDeps) = false
   ↔ currentDeps = prevDeps)
  ∧ trackDependencyChanges currentDeps currentDeps
    = {| hasChanges := false; changedIndices := []; lengthChanged := false;
         prevLength := None; currentLength := None |}.
Proof.
  split; [apply hasChanges_false_iff|].
  destruct currentDeps as [c|]; [|done].
  pose proof (proj2 (changedIndices_nil_iff c c) (λ _, eq_refl)) as Hc.
  revert Hc. cbn [trackDependencyChanges changedIndices].
  intros ->. by rewrite Nat.eqb_refl.
Qed.

Lemma filter_eq_seq (k start len : nat) :
  filter (λ j, j = k) (seq start len)
  = if bool_decide (start ≤ k < start + len) then [k] else [].
Proof.
  revert start. induction len as [|len IH]; intros start.
  - simpl. rewrite bool_decide_eq_false_2 by lia. done.
  - cbn [seq]. rewrite filter_cons, IH.
    destruct (decide (start = k)) as [->|Hne].
    + rewrite (bool_decide_eq_false_2 (S k ≤ k < _)) by lia.
      by rewrite bool_decide_eq_true_2 by lia.
    + destruct (decide (start ≤ k < start + S len)).
      * by rewrite !bool_decide_eq_true_2 by lia.
      * by rewrite !bool_decide_eq_false_2 by lia.
Qed.

(** When one dependency of a list is replaced by another value, the changed
    indices are that index alone and the length is unchanged. *)
Theorem trackDependencyChanges_one_replaced
    (deps : list value) (k : nat) (old new : value) :
  deps !! k = Some old → new ≠ old →
  let changes := trackDependencyChanges (Some (<[k:=new]> deps)) (Some deps) in
  changedIndices changes = [k]
  ∧ lengthChanged changes = false
  ∧ hasChanges changes = true
  ∧ prevLength changes = None ∧ currentLength changes = None.
Proof.
  intros Hold Hne changes.
  pose proof (lookup_lt_Some _ _ _ Hold) as Hk.
  assert (changedIndices changes = [k]) as Hc.
  { subst changes. rewrite changedIndices_filter, length_insert, Nat.max_id.
    rewrite (list_filter_iff _ (λ j, j = k)).
    - rewrite filter_eq_seq. by rewrite bool_decide_eq_true_2 by lia.
    - intros j. unfold index. destruct (decide (j = k)) as [->|Hj].
      + rewrite list_lookup_insert_eq by done. rewrite Hold. simpl.
        split; [done | by intros _ ?].
      + rewrite list_lookup_insert_ne by done. split; [done | by intros ?]. }
  split; [done|]. revert Hc. subst changes.
  cbn [trackDependencyChanges changedIndices lengthChanged hasChanges
       prevLength currentLength].
  rewrite length_insert, Nat.eqb_refl. intros ->. by split_and!.
Qed.

Lemma trackDependencyChanges_one_replaced_witness :
  changedIndices
    (trackDependencyChanges
       (Some (<[1:=VString "newB"]> [VString "a"; VString "b"; VString "c"]))
       (Some [VString "a"; VString "b"; VString "c"])) = [1].
Proof.
  pose proof (trackDependencyChanges_one_replaced
    [VString "a"; VString "b"; VString "c"] 1 (VString "b") (VString "newB")
    eq_refl) as H.
  apply H. discriminate.
Defined.

Lemma filter_seq_sorted (P : nat → Prop) `{!∀ j, Decision (P j)} start len :
  StronglySorted lt (filter P (seq start len)).
Proof.
  revert start. induction len as [|len IH]; intros start; [constructor|].
  cbn [seq]. rewrite filter_cons. case_decide; [|apply IH].
  constructor; [apply IH|].
  apply Forall_forall. intros j [_ Hj%elem_of_seq]%list_elem_of_filter. lia.
Qed.

(** The changed indices come in strictly increasing order, so none is
    listed twice, and all are below the larger of the two lengths; when one
    of the two lists is absent no index is listed. *)
Theorem changedIndices_increasing (currentDeps prevDeps : option (list value)) :
  let changes := trackDependencyChanges currentDeps prevDeps in
  StronglySorted lt (changedIndices changes)
  ∧ NoDup (changedIndices changes)
  ∧ Forall
      (λ i, i < from_option length 0 currentDeps
                  `max` from_option length 0 prevDeps)
      (changedIndices changes)
  ∧ changedIndices (trackDependencyChanges None prevDeps) = []
  ∧ changedIndices (trackDependencyChanges currentDeps None) = [].
Proof.
  destruct currentDeps as [c|], prevDeps as [p|];
    try (cbn; split_and!; done || constructor).
  intros changes. subst changes. rewrite changedIndices_filter. split_and!.
  - apply filter_seq_sorted.
  - apply NoDup_filter, NoDup_seq.
  - apply Forall_forall.
    intros j [_ Hj%elem_of_seq]%list_elem_of_filter. simpl. lia.
  - done.
  - done.
Qed.

(** [trackDependencyChanges] and [detectDepsLengthChange] agree on whether
    the length changed, and the two lengths are reported exactly when it
    did. *)
Theorem lengthChanged_agrees (currentDeps prevDeps : option (list value)) :
  let changes := trackDependencyChanges currentDeps prevDeps in
  lengthChanged changes = detectDepsLengthChange currentDeps prevDeps
  ∧ (if lengthChanged changes
     then prevLength changes = length <$> prevDeps
          ∧ currentLength changes = length <$> currentDeps
          ∧ hasChanges changes = true
     else prevLength changes = None ∧ currentLength changes = None).
Proof.
  destruct currentDeps as [c|], prevDeps as [p|]; try (by cbn).
  cbn. destruct (length c =? length p); cbn; [done|].
  by rewrite orb_true_r.
Qed.

(** ** Stale closures *)

Lemma stale_loop_spec declaredDeps prevDeps steps i :
  (isStale (stale_loop declaredDeps prevDeps steps i) = false
   ∧ description (stale_loop declaredDeps prevDeps steps i) = None
   ∧ ∀ j, i ≤ j < i + steps → index declaredDeps j = index prevDeps j)
  ∨ (∃ j, i ≤ j < i + steps
       ∧ stale_loop declaredDeps prevDeps steps i
         = {| isStale := true; description := Some (stale_description j) |}
       ∧ index declaredDeps j ≠ index prevDeps j
       ∧ ∀ j', i ≤ j' < j → index declaredDeps j' = index prevDeps j').
Proof.
  revert i. induction steps as [|steps IH]; intros i; simpl.
  - left. split_and!; [done | done | intros; lia].
  - destruct (Object_is (index declaredDeps i) (index prevDeps i)) eqn:E; simpl.
    + apply Object_is_true in E.
      destruct (IH (S i)) as [(H1 & H2 & H3)|(j & Hj & H1 & H2 & H3)].
      * left. split_and!; [done | done |].
        intros j Hj. destruct (decide (j = i)) as [->|]; [done|].
        apply H3. lia.
      * right. exists j. split; [lia|]. split; [done|]. split; [done|].
        intros j' Hj'. destruct (decide (j' = i)) as [->|]; [done|].
        apply H3. lia.
    + apply Object_is_false in E. right. exists i.
      split; [lia|]. split; [done|]. split; [done | intros; lia].
Qed.

(** [detectStaleClosure] reports a stale closure exactly in development,
    when the callback did not change, a previous list is present and some
    index of the declared list reads differently in the two lists; the
    description then names the least such index.  Otherwise there is no
    description. *)
Theorem detectStaleClosure_spec
    (dev : bool) (declaredDeps : list value) (prevDeps : option (list value))
    (callbackChanged : bool) :
  let result := detectStaleClosure dev declaredDeps prevDeps callbackChanged in
  (isStale result = true
   ↔ dev = true ∧ callbackChanged = false
     ∧ ∃ previous j,
         prevDeps = Some previous ∧ j < length declaredDeps
         ∧ index declaredDeps j ≠ index previous j)
  ∧ (isStale result = true →
     ∃ previous j,
       prevDeps = Some previous ∧ j < length declaredDeps
       ∧ description result = Some (stale_description j)
       ∧ index declaredDeps j ≠ index previous j
       ∧ ∀ j', j' < j → index declaredDeps j' = index previous j')
  ∧ (isStale result = false → description result = None).
Proof.
  unfold detectStaleClosure.
  destruct dev; simpl;
    [|split_and!; [split; [done | by intros [? _]] | done | done]].
  destruct prevDeps as [p|]; simpl;
    [|split_and!; [split; [done | by intros (_ & _ & ? & ? & ? & _)]
                  | done | done]].
  destruct callbackChanged; simpl;
    [split_and!; [split; [done | by intros (_ & ? & _)] | done | done]|].
  destruct (stale_loop_spec declaredDeps p (length declaredDeps) 0)
    as [(H1 & H2 & H3)|(j & Hj & H1 & H2 & H3)].
  - rewrite H1, H2. split_and!; [|done|done].
    split; [done|]. intros (_ & _ & previous & j & [= <-] & Hj & Hne).
    destruct Hne. apply H3. lia.
  - rewrite H1. simpl. split_and!; [|intros _|done].
    + split; [|done]. intros _. split_and!; [done|done|].
      exists p, j. split_and!; [done | lia | done].
    + exists p, j. split_and!; [done | lia | done | done |].
      intros j' Hj'. apply H3. lia.
Qed.

Lemma detectStaleClosure_spec_witness :
  ∃ previous j,
    Some [VString "x"; VString "old"] = Some previous ∧ j < 2
    ∧ description
        (detectStaleClosure true [VString "x"; VString "new"]
           (Some [VString "x"; VString "old"]) false)
      = Some (stale_description j)
    ∧ index [VString "x"; VString "new"] j ≠ index previous j
    ∧ ∀ j', j' < j → index [VString "x"; VString "new"] j' = index previous j'.
Proof.
  apply (proj1 (proj2 (detectStaleClosure_spec true
    [VString "x"; VString "new"] (Some [VString "x"; VString "old"]) false))).
  reflexivity.
Defined.

(** Whatever [detectStaleClosure] reports as stale, [trackDependencyChanges]
    reports as a change, with the least changed index first. *)
Theorem detectStaleClosure_implies_change
    (dev : bool) (declaredDeps previous : list value) (callbackChanged : bool) :
  isStale (detectStaleClosure dev declaredDeps (Some previous) callbackChanged)
  = true →
  let changes := trackDependencyChanges (Some declaredDeps) (Some previous) in
  hasChanges changes = true
  ∧ ∃ j rest,
      changedIndices changes = j :: rest
      ∧ description
          (detectStaleClosure dev declaredDeps (Some previous) callbackChanged)
        = Some (stale_description j).
Proof.
  intros Hstale changes. revert Hstale. unfold detectStaleClosure.
  destruct dev; [|done]. destruct callbackChanged; [done|]. cbn [negb].
  destruct (stale_loop_spec declaredDeps previous (length declaredDeps) 0)
    as [(H1 & _)|(j & Hj & H1 & Hne & Hleast)]; [congruence|].
  rewrite H1. intros _. cbn [description].
  assert (j ∈ changedIndices changes) as Hin.
  { apply elem_of_changedIndices. split; [lia | done]. }
  assert (∃ j0 rest, changedIndices changes = j0 :: rest) as (j0 & rest & Hc).
  { destruct (changedIndices changes) as [|j0 rest]; [|by eauto].
    by apply elem_of_nil in Hin. }
  assert (j0 = j) as ->.
  { assert (j0 ∈ changedIndices changes) as Hj0 by (rewrite Hc; by left).
    apply elem_of_changedIndices in Hj0 as [_ Hj0].
    destruct (decide (j0 < j)) as [Hlt|Hge].
    { destruct Hj0. apply Hleast. lia. }
    destruct (decide (j0 = j)) as [|Hne']; [done|].
    assert (StronglySorted lt (changedIndices changes)) as Hsorted.
    { subst changes. rewrite changedIndices_filter. apply filter_seq_sorted. }
    rewrite Hc in Hsorted.
    apply StronglySorted_inv in Hsorted as [_ Hall].
    rewrite Hc in Hin. apply elem_of_cons in Hin as [->|Hin]; [done|].
    rewrite Forall_forall in Hall. specialize (Hall j Hin). lia. }
  split; [|by eauto].
  subst changes. revert Hc.
  cbn [trackDependencyChanges changedIndices hasChanges]. by intros ->.
Qed.

Lemma detectStaleClosure_implies_change_witness :
  hasChanges
    (trackDependencyChanges (Some [VString "new"]) (Some [VString "old"]))
  = true.
Proof.
  apply (detectStaleClosure_implies_change true [VString "new"]
    [VString "old"] false).
  reflexivity.
Defined.

(** ** The callback tracker *)

Lemma tracker_run_length dev tracker renderCount callbacks :
  length (tracker_run dev tracker renderCount callbacks).1 = length callbacks.
Proof.
  revert tracker renderCount.
  induction callbacks as [|[cb deps] callbacks IH]; intros tracker rc; [done|].
  cbn [tracker_run]. destruct (updateCallbackTracker _ _ _ _ _) as [r t].
  specialize (IH t (rc + 1)%Z).
  destruct (tracker_run dev t (rc + 1)%Z callbacks) as [rs t']. simpl in *.
  by rewrite IH.
Qed.

Lemma identity_changes_bounds previous callbacks :
  (0 ≤ identity_changes previous callbacks ≤ Z.of_nat (length callbacks))%Z.
Proof.
  revert previous. induction callbacks as [|[cb deps] callbacks IH];
    intros previous; simpl; [lia|].
  specialize (IH cb). destruct (strict_equal previous cb); lia.
Qed.

(** Over any run of updates the change count grows by the number of
    callbacks that are not [===] to their predecessor: it never decreases
    and grows by at most one per update.  The tracker ends up holding the
    last callback and its dependency list. *)
Theorem tracker_run_changeCount
    (dev : bool) (tracker : CallbackTracker.t) (renderCount : Z)
    (callbacks : list (value * list value)) :
  let final := (tracker_run dev tracker renderCount callbacks).2 in
  CallbackTracker.changeCount final
  = (CallbackTracker.changeCount tracker
     + identity_changes (CallbackTracker.prevCallback tracker) callbacks)%Z
  ∧ (CallbackTracker.changeCount tracker
     ≤ CallbackTracker.changeCount final
     ≤ CallbackTracker.changeCount tracker + Z.of_nat (length callbacks))%Z
  ∧ (∀ callback deps,
       last callbacks = Some (callback, deps) →
       CallbackTracker.prevCallback final = callback
       ∧ CallbackTracker.prevDeps final = Some deps).
Proof.
  cut (CallbackTracker.changeCount
         (tracker_run dev tracker renderCount callbacks).2
       = (CallbackTracker.changeCount tracker
          + identity_changes (CallbackTracker.prevCallback tracker) callbacks)%Z
       ∧ ∀ callback deps,
           last callbacks = Some (callback, deps) →
           CallbackTracker.prevCallback
             (tracker_run dev tracker renderCount callbacks).2 = callback
           ∧ CallbackTracker.prevDeps
               (tracker_run dev tracker renderCount callbacks).2 = Some deps).
  { intros [H1 H2]. cbn zeta. rewrite H1.
    pose proof (identity_changes_bounds
      (CallbackTracker.prevCallback tracker) callbacks).
    split_and!; [done | lia | lia | done]. }
  revert tracker renderCount.
  induction callbacks as [|[cb deps] callbacks IH]; intros tracker rc.
  - simpl. split; [lia | done].
  - cbn [tracker_run identity_changes]. unfold updateCallbackTracker.
    set (t := {| CallbackTracker.changeCount := _ |}).
    specialize (IH t (rc + 1)%Z).
    destruct (tracker_run dev t (rc + 1)%Z callbacks) as [rs t'] eqn:Erun.
    cbn [snd] in *. destruct IH as [IH1 IH2]. split.
    + rewrite IH1. subst t. cbn [CallbackTracker.changeCount
        CallbackTracker.prevCallback].
      destruct (strict_equal (CallbackTracker.prevCallback tracker) cb);
        simpl; lia.
    + intros callback deps' Hlast. destruct callbacks as [|c callbacks].
      * simpl in Hlast, Erun. injection Hlast as <- <-.
        injection Erun as _ <-. done.
      * apply IH2. by rewrite last_cons_cons in Hlast.
Qed.

Lemma tracker_run_stable dev l tracker renderCount depss :
  CallbackTracker.prevCallback tracker = VFunction l →
  CallbackTracker.changeCount tracker = 1%Z →
  Forall
    (λ r, CallbackStabilityResult.identityChanged r = false
          ∧ CallbackStabilityResult.changeCount r = 1%Z
          ∧ CallbackStabilityResult.isExcessive r = false)
    (tracker_run dev tracker renderCount ((λ d, (VFunction l, d)) <$> depss)).1.
Proof.
  revert tracker renderCount.
  induction depss as [|d depss IH]; intros tracker rc Hp Hc; [constructor|].
  cbn [fmap list_fmap tracker_run]. unfold updateCallbackTracker.
  rewrite Hp, Hc. cbn [strict_equal].
  rewrite bool_decide_eq_true_2 by done. cbn [negb].
  set (t := {| CallbackTracker.changeCount := _ |}).
  specialize (IH t (rc + 1)%Z eq_refl eq_refl).
  destruct (tracker_run dev t (rc + 1)%Z _) as [rs t'].
  cbn [fst] in *. constructor; [|done].
  split_and!; [done | done |].
  cbn [CallbackStabilityResult.isExcessive].
  unfold isExcessiveCallbackChange, EXCESSIVE_CHANGE_THRESHOLD.
  destruct dev; [|done]. cbn [negb].
  destruct (Z.ltb_spec 2 rc), (Z.eqb_spec 1 rc); simpl; try done; lia.
Qed.

(** A component that passes the same function in every render, starting
    with a fresh tracker at render 1: the first update counts one identity
    change, no later one does, and the tracker never calls it excessive. *)
Theorem tracker_run_stable_callback
    (dev : bool) (l : loc) (deps : list value) (depss : list (list value)) :
  let results :=
    (tracker_run dev createCallbackTracker 1
       ((λ d, (VFunction l, d)) <$> deps :: depss)).1 in
  head results
  = Some {| CallbackStabilityResult.identityChanged := true;
            CallbackStabilityResult.changeCount := 1;
            CallbackStabilityResult.isExcessive := false |}
  ∧ Forall
      (λ r, CallbackStabilityResult.identityChanged r = false
            ∧ CallbackStabilityResult.changeCount r = 1%Z
            ∧ CallbackStabilityResult.isExcessive r = false)
      (tail results).
Proof.
  cbn [fmap list_fmap tracker_run]. unfold updateCallbackTracker.
  cbn [createCallbackTracker CallbackTracker.prevCallback
       CallbackTracker.changeCount strict_equal].
  rewrite bool_decide_eq_false_2 by done. cbn [negb Z.add].
  set (t := {| CallbackTracker.changeCount := _ |}).
  pose proof (tracker_run_stable dev l t (1 + 1)%Z depss eq_refl eq_refl) as H.
  destruct (tracker_run dev t (1 + 1)%Z _) as [rs t'].
  cbn [fst head tail] in *. split; [|done].
  by destruct dev.
Qed.

Lemma tracker_run_fresh dev (renders : list (loc * list value)) tracker
    (count : Z) k r :
  NoDup renders.*1 →
  (CallbackTracker.prevCallback tracker = VUndefined
   ∨ ∃ l0, CallbackTracker.prevCallback tracker = VFunction l0
           ∧ l0 ∉ renders.*1) →
  CallbackTracker.changeCount tracker = count →
  (tracker_run dev tracker (count + 1)
     ((λ ld, (VFunction ld.1, ld.2)) <$> renders)).1 !! k = Some r →
  CallbackStabilityResult.identityChanged r = true
  ∧ CallbackStabilityResult.changeCount r = (count + 1 + Z.of_nat k)%Z
  ∧ CallbackStabilityResult.isExcessive r
    = isExcessiveCallbackChange dev (count + 1 + Z.of_nat k)
        (count + 1 + Z.of_nat k).
Proof.
  revert tracker count k.
  induction renders as [|[l deps] renders IH];
    intros tracker count k Hnd Hprev Hc; [done|].
  cbn [fmap list_fmap fst] in Hnd, Hprev.
  apply NoDup_cons in Hnd as [Hl Hnd].
  cbn [fmap list_fmap tracker_run fst snd]. unfold updateCallbackTracker.
  assert (strict_equal (CallbackTracker.prevCallback tracker) (VFunction l)
          = false) as ->.
  { destruct Hprev as [->|(l0 & -> & Hl0)]; cbn [strict_equal];
      apply bool_decide_eq_false_2; [done|].
    intros [= ->]. apply Hl0. by left. }
  cbn [negb]. rewrite Hc.
  set (t := {| CallbackTracker.changeCount := _ |}).
  specialize (IH t (count + 1)%Z).
  destruct (tracker_run dev t (count + 1 + 1)%Z _) as [rs t'].
  cbn [fst] in *. destruct k as [|k]; simpl.
  - intros [= <-]. cbn. rewrite !Z.add_0_r. done.
  - intros Hr. specialize (IH k Hnd).
    destruct IH as (H1 & H2 & H3); [by right; exists l | done | done |].
    rewrite H1, H2, H3.
    replace (count + 1 + 1 + Z.of_nat k)%Z
      with (count + 1 + Z.of_nat (S k))%Z by lia. done.
Qed.

(** A component that passes a new function in every render, whatever the
    dependency lists, starting with a fresh tracker at render 1: in render
    [n] the change count is [n], and in development the tracker calls it
    excessive from the third render on. *)
Theorem tracker_run_fresh_callbacks
    (dev : bool) (renders : list (loc * list value)) (k : nat)
    (r : CallbackStabilityResult.t) :
  NoDup renders.*1 →
  (tracker_run dev createCallbackTracker 1
     ((λ ld, (VFunction ld.1, ld.2)) <$> renders)).1 !! k = Some r →
  CallbackStabilityResult.identityChanged r = true
  ∧ CallbackStabilityResult.changeCount r = (Z.of_nat k + 1)%Z
  ∧ CallbackStabilityResult.isExcessive r = dev && bool_decide (2 ≤ k).
Proof.
  intros Hnd Hr.
  destruct (tracker_run_fresh dev renders createCallbackTracker 0 k r Hnd)
    as (H1 & H2 & H3); [by left | done | done |].
  split; [done|]. split; [rewrite H2; lia|].
  rewrite H3. unfold isExcessiveCallbackChange, EXCESSIVE_CHANGE_THRESHOLD.
  destruct dev; [|done]. cbn [negb andb].
  rewrite Z.eqb_refl, andb_true_r.
  case_bool_decide.
  - by rewrite (proj2 (Z.ltb_lt _ _)) by lia.
  - rewrite (proj2 (Z.ltb_ge _ _)) by lia.
    by rewrite (proj2 (Z.ltb_ge _ _)) by lia.
Qed.

Lemma tracker_run_fresh_callbacks_witness :
  let renders : list (loc * list value) :=
    [(1%positive, []); (2%positive, [VNull]);
     (3%positive, [VNull; VString "a"]); (4%positive, [VObject 7])] in
  ∃ r,
    (tracker_run true createCallbackTracker 1
       ((λ ld, (VFunction ld.1, ld.2)) <$> renders)).1 !! 3 = Some r
    ∧ CallbackStabilityResult.changeCount r = 4%Z
    ∧ CallbackStabilityResult.isExcessive r = true.
Proof.
  intros renders. eexists. split; [reflexivity|].
  assert (NoDup renders.*1) as Hnd.
  { apply (bool_decide_unpack _). vm_compute. exact I. }
  pose proof (tracker_run_fresh_callbacks true renders 3 _
    Hnd eq_refl) as (_ & H2 & H3).
  done.
Defined.

(** ** The text of a change report *)

(** For every report of [trackDependencyChanges] the text is
    ["No changes detected."] exactly when the two arguments are the same,
    and otherwise starts with ["Depend"]; it is never empty. *)
Theorem formatDepsChanges_of_report
    (currentDeps prevDeps : option (list value)) :
  let text :=
    formatDepsChanges (trackDependencyChanges currentDeps prevDeps) in
  (text = "No changes detected." ↔ currentDeps = prevDeps)
  ∧ (currentDeps ≠ prevDeps → ∃ rest, text = "Depend" +:+ rest)
  ∧ text ≠ EmptyString.
Proof.
  intros text.
  assert (currentDeps = prevDeps ∧ text = "No changes detected."
          ∨ currentDeps ≠ prevDeps ∧ ∃ rest, text = "Depend" +:+ rest)
    as [[Heq Ht]|[Hne [rest Ht]]].
  { destruct (hasChanges (trackDependencyChanges currentDeps prevDeps))
      eqn:Eh.
    - right. split.
      { intros Heq. apply hasChanges_false_iff in Heq. congruence. }
      subst text. unfold formatDepsChanges. rewrite Eh. cbn [negb].
      destruct (lengthChanged _) eqn:El.
      + destruct (0 <? length _); cbn [app String.concat String.append];
          eauto.
      + destruct (0 <? length _) eqn:Ec;
          [cbn [app String.concat String.append]; eauto|].
        destruct currentDeps as [c|], prevDeps as [p|]; try discriminate.
        cbn [trackDependencyChanges hasChanges lengthChanged changedIndices]
          in Eh, El, Ec.
        rewrite El, Ec in Eh. discriminate.
    - left. split; [by apply hasChanges_false_iff|].
      subst text. unfold formatDepsChanges. by rewrite Eh. }
  - rewrite Ht. split_and!; [done | done | discriminate].
  - rewrite Ht. split_and!; [|by eauto|discriminate].
    split; [discriminate | done].
Qed.

Lemma formatDepsChanges_of_report_witness :
  ∃ rest,
    formatDepsChanges
      (trackDependencyChanges (Some [VNull; VNull]) (Some [VNull]))
    = "Depend" +:+ rest.
Proof.
  apply (proj1 (proj2 (formatDepsChanges_of_report
    (Some [VNull; VNull]) (Some [VNull])))).
  discriminate.
Defined.

(** ** The keys of the deduplication store *)

Lemma append_colon_inj (a1 a2 r1 r2 : string) :
  has_char ":"%char a1 = false → has_char ":"%char a2 = false →
  a1 +:+ ":" +:+ r1 = a2 +:+ ":" +:+ r2 → a1 = a2 ∧ r1 = r2.
Proof.
  revert a2. induction a1 as [|c1 a1 IH]; intros [|c2 a2]; simpl;
    intros H1 H2 Heq.
  - by injection Heq.
  - injection Heq as <- _. by rewrite bool_decide_eq_true_2 in H2.
  - injection Heq as -> _. by rewrite bool_decide_eq_true_2 in H1.
  - injection Heq as -> Heq.
    apply orb_false_iff in H1 as [_ H1]. apply orb_false_iff in H2 as [_ H2].
    destruct (IH a2 H1 H2 Heq) as [-> ->]. done.
Qed.

(** Two warning keys are equal only for the same component label, hook
    name and issue type, provided the labels and the hook names hold no
    colon.  The label of an absent or empty component name is
    ["Unknown"]. *)
Theorem createWarningKey_inj
    (hookName1 hookName2 issueType1 issueType2 : string)
    (componentName1 componentName2 : option string) :
  has_char ":"%char (default "Unknown" (truthy componentName1)) = false →
  has_char ":"%char (default "Unknown" (truthy componentName2)) = false →
  has_char ":"%char hookName1 = false → has_char ":"%char hookName2 = false →
  createWarningKey hookName1 issueType1 componentName1
  = createWarningKey hookName2 issueType2 componentName2 →
  default "Unknown" (truthy componentName1)
  = default "Unknown" (truthy componentName2)
  ∧ hookName1 = hookName2 ∧ issueType1 = issueType2.
Proof.
  unfold createWarningKey. intros Hc1 Hc2 Hh1 Hh2 Heq.
  apply append_colon_inj in Heq as [Hc Heq]; [|done|done].
  apply append_colon_inj in Heq as [Hh Hi]; [|done|done].
  done.
Qed.

Lemma createWarningKey_inj_witness :
  default "Unknown" (truthy None) = default "Unknown" (truthy (Some "Unknown"))
  ∧ "useSafeMemo" = "useSafeMemo" ∧ "deps-length" = "deps-length".
Proof.
  apply (createWarningKey_inj "useSafeMemo" "useSafeMemo"
    "deps-length" "deps-length" None (Some "Unknown")); reflexivity.
Defined.

(** ** More on the unstable-reference detector *)

Lemma strict_equal_object l v :
  strict_equal (VObject l) v = bool_decide (VObject l = v).
Proof. done. Qed.

(** Every index [detectUnstableDeps] reports is in range for both lists, is
    one of the changed indices of [trackDependencyChanges], and holds two
    objects that [shallowEqual] accepts.  A list compared with itself gives
    no report. *)
Theorem detectUnstableDeps_sound
    (dev : bool) (h : heap) (currentDeps previous : list value) (i : nat) :
  (i ∈ detectUnstableDeps dev h currentDeps (Some previous) →
   i < length currentDeps `min` length previous
   ∧ i ∈ changedIndices
           (trackDependencyChanges (Some currentDeps) (Some previous))
   ∧ shallowEqual h (index currentDeps i) (index previous i) = true
   ∧ dev = true)
  ∧ detectUnstableDeps dev h currentDeps (Some currentDeps) = [].
Proof.
  assert (∀ p, i ∈ detectUnstableDeps dev h currentDeps (Some p) →
    dev = true
    ∧ ∃ l1 l2, index currentDeps i = VObject l1 ∧ index p i = VObject l2
      ∧ l1 ≠ l2
      ∧ shallowEqual h (index currentDeps i) (index p i) = true) as Hmain.
  { intros p. unfold detectUnstableDeps.
    destruct dev; simpl; [|by intros ?%elem_of_nil].
    rewrite elem_of_unstable_loop.
    intros [?%elem_of_nil|(_ & Hne & Hc & Hcn & Hp & Hpn & Hs)]; [done|].
    split; [done|].
    destruct (typeof_object_not_null _ Hc Hcn) as [l1 E1].
    destruct (typeof_object_not_null _ Hp Hpn) as [l2 E2].
    exists l1, l2. split_and!; try done.
    intros ->. rewrite E1, E2, strict_equal_object in Hne.
    by rewrite bool_decide_eq_true_2 in Hne. }
  assert (∀ deps l, index deps i = VObject l → i < length deps) as Hrange.
  { intros deps l. unfold index.
    destruct (deps !! i) as [v|] eqn:E; simpl; [|discriminate].
    intros _. by apply lookup_lt_Some in E. }
  split.
  - intros (Hdev & l1 & l2 & E1 & E2 & Hl & Hs)%Hmain.
    pose proof (Hrange _ _ E1). pose proof (Hrange _ _ E2).
    split_and!; [lia | | done | done].
    apply elem_of_changedIndices. split; [lia|].
    rewrite E1, E2. congruence.
  - apply elem_of_nil_inv. intros j.
    unfold detectUnstableDeps. destruct dev; simpl; [|apply not_elem_of_nil].
    rewrite elem_of_unstable_loop.
    intros [?%elem_of_nil|(_ & Hne & Hc & Hcn & _)]; [done|].
    destruct (typeof_object_not_null _ Hc Hcn) as [l1 E1].
    rewrite E1, strict_equal_object in Hne.
    by rewrite bool_decide_eq_true_2 in Hne.
Qed.

Lemma detectUnstableDeps_sound_witness :
  0 < length [VObject 1] `min` length [VObject 2]
  ∧ 0 ∈ changedIndices
          (trackDependencyChanges (Some [VObject 1]) (Some [VObject 2]))
  ∧ shallowEqual heap_two_x1 (index [VObject 1] 0) (index [VObject 2] 0)
    = true
  ∧ true = true.
Proof.
  apply (proj1 (detectUnstableDeps_sound true heap_two_x1
    [VObject 1] [VObject 2] 0)).
  vm_compute. left.
Defined.

(** ** The sink and the store over a run *)

Lemma emitter_step_prefix dev c w :
  console w `prefix_of` console (emitter_step dev c w).
Proof.
  destruct c as [k m|m|]; simpl; [| |done].
  - unfold warnOnce. destruct dev; simpl; [|done].
    case_bool_decide; simpl; [done | by apply prefix_app_r].
  - unfold warn. destruct dev; simpl; [by apply prefix_app_r | done].
Qed.

Lemma emitter_run_snoc dev cs c w :
  emitter_run dev (cs ++ [c]) w = emitter_step dev c (emitter_run dev cs w).
Proof. unfold emitter_run. by rewrite foldl_app. Qed.

(** Whatever calls are made, resets included, what was written to the sink
    stays there: the console only grows at its end.  Without a reset the
    store of warned keys only grows; a reset leaves the console as it
    is. *)
Theorem emitter_run_append_only
    (dev : bool) (cs : list emitter_call) (w : WarnState) :
  console w `prefix_of` console (emitter_run dev cs w)
  ∧ (forallb (λ c, negb (is_clear c)) cs = true →
     warnedKeys w ⊆ warnedKeys (emitter_run dev cs w))
  ∧ console (clearWarnings w) = console w
  ∧ warnedKeys (clearWarnings w) = ∅.
Proof.
  split_and!; [| |done|done].
  - induction cs as [|c cs IH] using rev_ind; [done|].
    rewrite emitter_run_snoc. etrans; [exact IH|]. apply emitter_step_prefix.
  - induction cs as [|c cs IH] using rev_ind; [done|].
    rewrite forallb_app, andb_true_iff. simpl. rewrite andb_true_r.
    intros [Hcs Hc%negb_true_iff]. rewrite emitter_run_snoc.
    intros key Hkey. apply emitter_step_keeps; [done|]. by apply IH.
Qed.

Lemma emitter_run_append_only_witness :
  warnedKeys (warnOnce true "k" "m" initial_WarnState)
  ⊆ warnedKeys
      (emitter_run true [CallWarn "a"; CallWarnOnce "k2" "b"]
         (warnOnce true "k" "m" initial_WarnState)).
Proof.
  apply (proj1 (proj2 (emitter_run_append_only true
    [CallWarn "a"; CallWarnOnce "k2" "b"]
    (warnOnce true "k" "m" initial_WarnState)))).
  reflexivity.
Defined.

(** In development, in a run of [warnOnce] calls alone, each message
    written goes with one key entering the store: the console and the store
    grow by the same number. *)
Theorem warnOnce_run_counts (calls : list (string * string)) (w : WarnState) :
  let w' :=
    emitter_run true ((λ km, CallWarnOnce km.1 km.2) <$> calls) w in
  length (console w') + size (warnedKeys w)
  = length (console w) + size (warnedKeys w')
  ∧ size (warnedKeys w') ≤ size (warnedKeys w) + length calls.
Proof.
  induction calls as [|[k m] calls IH] using rev_ind; [simpl; lia|].
  rewrite fmap_app. cbn [fmap list_fmap]. rewrite emitter_run_snoc.
  cbn zeta in *. rewrite length_app. cbn [length emitter_step fst snd].
  set (w1 := emitter_run true _ w) in *.
  destruct (decide (k ∈ warnedKeys w1)) as [Hk|Hk].
  - rewrite warnOnce_warned by done. lia.
  - rewrite warnOnce_fresh by done. cbn [console warnedKeys].
    rewrite length_app, size_union.
    + rewrite size_singleton. simpl. lia.
    + intros k' ->%elem_of_singleton. done.
Qed.

(** ** The hooks that keep a ref *)

(** In a sequence of committed renders [usePrevious] returns, in each
    render, the value passed in the render before, and the initial content
    of the ref, [undefined], in the first. *)
Theorem usePrevious_run_shift {T : Type}
    (ref : option T) (values : list (option T)) :
  usePrevious_run ref values = take (length values) (ref :: values)
  ∧ (∀ k, usePrevious_run ref values !! S k
          = if decide (S k < length values) then values !! k else None)
  ∧ head (usePrevious_run None values)
    = if decide (0 < length values) then Some None else None.
Proof.
  assert (∀ r, usePrevious_run r values = take (length values) (r :: values))
    as Hrun.
  { induction values as [|v values IH]; intros r; [done|].
    cbn [usePrevious_run usePrevious length take]. by rewrite IH. }
  split; [apply Hrun|]. split.
  - intros k. rewrite Hrun. case_decide.
    + rewrite lookup_take_lt by done. done.
    + by rewrite lookup_take_ge by lia.
  - rewrite Hrun. destruct values as [|v values]; [done|].
    cbn [length take head]. rewrite decide_True by lia. done.
Qed.

(** ** More on the shallow comparator *)

(** Every value is shallowly equal to itself, and when one of the two
    values is not an object, or is [null], [shallowEqual] is [Object.is]:
    functions, like primitives, are compared by identity alone. *)
Theorem shallowEqual_non_object (h : heap) (a b : value) :
  shallowEqual h a a = true
  ∧ (typeof a ≠ TObject ∨ a = VNull ∨ typeof b ≠ TObject ∨ b = VNull →
     shallowEqual h a b = Object_is a b).
Proof.
  unfold shallowEqual. split.
  - by rewrite (proj2 (Object_is_true a a) eq_refl).
  - intros Hcase. destruct (Object_is a b); [done|].
    destruct (bool_decide (typeof a = TObject)) eqn:Ea; [|done].
    destruct (strict_equal a VNull) eqn:Ean; [done|].
    destruct (bool_decide (typeof b = TObject)) eqn:Eb; [|done].
    destruct (strict_equal b VNull) eqn:Ebn; [done|]. exfalso.
    apply bool_decide_eq_true in Ea, Eb.
    destruct Hcase as [?|[ -> |[?| -> ]]]; done.
Qed.

Lemma shallowEqual_non_object_witness :
  shallowEqual heap_two_x1 (VFunction 1) (VFunction 2)
  = Object_is (VFunction 1) (VFunction 2).
Proof.
  apply (proj2 (shallowEqual_non_object heap_two_x1
    (VFunction 1) (VFunction 2))).
  left. discriminate.
Defined.

Lemma Get_absent h v key :
  key ∉ prop_key <$> own_properties h v → Get h v key = VUndefined.
Proof.
  intros Hkey. unfold Get.
  destruct (find_property (own_properties h v) key) as [p|] eqn:E; [|done].
  destruct Hkey. apply find_property_is_Some. by rewrite E.
Qed.

(** Two distinct objects whose own properties are all enumerable are
    shallowly equal exactly when they have the same keys and, at every key,
    the same value. *)
Theorem shallowEqual_plain_iff (h : heap) (la lb : loc) :
  plain h (VObject la) → plain h (VObject lb) → la ≠ lb →
  shallowEqual h (VObject la) (VObject lb) = true
  ↔ Object_keys h (VObject la) ≡ₚ Object_keys h (VObject lb)
    ∧ ∀ key, Get h (VObject la) key = Get h (VObject lb) key.
Proof.
  intros Ha Hb Hne. unfold shallowEqual, Object_is.
  rewrite bool_decide_eq_false_2 by congruence.
  cbn [typeof strict_equal negb orb].
  rewrite !bool_decide_eq_true_2 by done.
  rewrite !bool_decide_eq_false_2 by done. cbn [negb orb].
  rewrite !Object_keys_plain by done.
  set (ka := prop_key <$> own_properties h (VObject la)).
  set (kb := prop_key <$> own_properties h (VObject lb)).
  destruct (Nat.eqb_spec (length ka) (length kb)) as [Hlen|Hlen];
    cbn [negb].
  - rewrite shallowEqual_keys_true. split.
    + intros H.
      assert (ka ≡ₚ kb) as Hperm.
      { apply submseteq_length_Permutation; [|lia].
        apply NoDup_submseteq; [apply Ha|].
        intros key Hkey. apply hasOwnProperty_true, H, Hkey. }
      split; [done|]. intros key.
      destruct (decide (key ∈ ka)) as [Hin|Hin]; [by apply H|].
      assert (key ∉ kb) as Hin' by (by rewrite <- Hperm).
      by rewrite (Get_absent h (VObject la) key Hin),
        (Get_absent h (VObject lb) key Hin').
    + intros [Hperm H] key Hkey. split; [|done].
      apply hasOwnProperty_true. subst ka kb. by rewrite <- Hperm.
  - split; [done|]. intros [Hperm _]. by rewrite Hperm in Hlen.
Qed.

Lemma shallowEqual_plain_iff_witness :
  shallowEqual heap_two_x1 (VObject 1) (VObject 2) = true
  ↔ Object_keys heap_two_x1 (VObject 1) ≡ₚ Object_keys heap_two_x1 (VObject 2)
    ∧ ∀ key, Get heap_two_x1 (VObject 1) key = Get heap_two_x1 (VObject 2) key.
Proof.
  apply (shallowEqual_plain_iff heap_two_x1 1 2).
  - split; vm_compute; repeat constructor. by intros ?%elem_of_nil.
  - split; vm_compute; repeat constructor. by intros ?%elem_of_nil.
  - discriminate.
Defined.

(** * Properties of the hooks *)

(** ** Bounded warnings *)

(** A [warnOnce] with a key of [K] that writes takes its key out of the
    keys of [K] still unwarned. *)
Lemma warnOnce_measure dev (K : gset string) key message w :
  key ∈ K →
  length (console (warnOnce dev key message w))
  + size (K ∖ warnedKeys (warnOnce dev key message w))
  = length (console w) + size (K ∖ warnedKeys w).
Proof.
  intros HK. destruct (decide (key ∈ warnedKeys w)) as [Hk|Hk].
  { by rewrite warnOnce_warned. }
  destruct dev; [|done]. rewrite warnOnce_fresh by done.
  cbn [console warnedKeys]. rewrite length_app. cbn [length].
  assert (K ∖ ({[key]} ∪ warnedKeys w) = (K ∖ warnedKeys w) ∖ {[key]}) as ->.
  { apply set_eq. intros x.
    rewrite !elem_of_difference, elem_of_union, elem_of_singleton. tauto. }
  assert (({[key]} : gset string) ⊆ K ∖ warnedKeys w) as Hsub.
  { intros x ->%elem_of_singleton. by apply elem_of_difference. }
  rewrite size_difference by done. rewrite size_singleton.
  apply subseteq_size in Hsub. rewrite size_singleton in Hsub. lia.
Qed.

Lemma size_union_le (X Y : gset string) : size (X ∪ Y) ≤ size X + size Y.
Proof.
  rewrite size_union_alt.
  assert (Y ∖ X ⊆ Y) as Hs by (intros x [? _]%elem_of_difference; done).
  apply subseteq_size in Hs. lia.
Qed.

Lemma size_three (a b c : string) : size ({[a; b; c]} : gset string) ≤ 3.
Proof.
  pose proof (size_union_le ({[a]} ∪ {[b]}) {[c]}) as H1.
  pose proof (size_union_le {[a]} {[b]}) as H2.
  pose proof (size_singleton (C:=gset string) a) as Ha.
  pose proof (size_singleton (C:=gset string) b) as Hb.
  pose proof (size_singleton (C:=gset string) c) as Hc.
  lia.
Qed.

Lemma cond_warnOnce_measure dev (K : gset string) (c : bool) key message w :
  key ∈ K →
  length (console (if c then warnOnce dev key message w else w))
  + size (K ∖ warnedKeys (if c then warnOnce dev key message w else w))
  = length (console w) + size (K ∖ warnedKeys w).
Proof. intros HK. destruct c; [by apply warnOnce_measure | done]. Qed.

Lemma cond_warnOnce_prefix dev (c : bool) key message w :
  console w `prefix_of` console (if c then warnOnce dev key message w else w).
Proof.
  destruct c; [|done]. apply (emitter_step_prefix dev (CallWarnOnce key message)).
Qed.

Lemma elem_of_three (a b c x : string) :
  x = a ∨ x = b ∨ x = c → x ∈ ({[a; b; c]} : gset string).
Proof.
  rewrite !elem_of_union, !elem_of_singleton. tauto.
Qed.

Lemma useSafeCallback_measure dev stack_name h callback deps options st :
  let K := SafeCallback.keys stack_name options in
  let st' :=
    SafeCallback.useSafeCallback dev stack_name h callback deps options st in
  length (console (SafeCallback.warns st'))
  + size (K ∖ warnedKeys (SafeCallback.warns st'))
  = length (console (SafeCallback.warns st))
    + size (K ∖ warnedKeys (SafeCallback.warns st))
  ∧ console (SafeCallback.warns st) `prefix_of` console (SafeCallback.warns st').
Proof.
  intros K st'. subst st'. unfold SafeCallback.useSafeCallback.
  destruct dev; [|done].
  cbn [negb useComponentName useRenderCount usePrevious].
  assert (createWarningKey (SafeCallback.hookName_of options) "stale-closure"
            (Some stack_name) ∈ K) as H1 by (apply elem_of_three; auto).
  assert (createWarningKey (SafeCallback.hookName_of options) "unstable-deps"
            (Some stack_name) ∈ K) as H2 by (apply elem_of_three; auto).
  assert (createWarningKey (SafeCallback.hookName_of options)
            "excessive-changes" (Some stack_name) ∈ K) as H3
    by (apply elem_of_three; auto).
  destruct (negb (strict_equal _ callback)); cbn [SafeCallback.warns].
  all: split;
    [ rewrite cond_warnOnce_measure by done
    | etrans; [|apply cond_warnOnce_prefix] ].
  all: destruct (SafeCallback.previousRef st) as [prev|]; [|done].
  all: try (rewrite cond_warnOnce_measure by done).
  all: try (etrans; [|apply cond_warnOnce_prefix]).
  all: destruct (default true _); [|done].
  all: try (by rewrite cond_warnOnce_measure by done).
  all: apply cond_warnOnce_prefix.
Qed.

Lemma useSafeCallback_run_snoc dev stack_name options renders r st :
  SafeCallback.run dev stack_name options (renders ++ [r]) st
  = SafeCallback.useSafeCallback dev stack_name r.1.1 r.1.2 r.2 options
      (SafeCallback.run dev stack_name options renders st).
Proof. unfold SafeCallback.run. by rewrite foldl_app. Qed.

Lemma useSafeCallback_run_production stack_name options renders st :
  SafeCallback.run false stack_name options renders st = st.
Proof.
  induction renders as [|r renders IH] using rev_ind; [done|].
  by rewrite useSafeCallback_run_snoc, IH.
Qed.

(** One call site of [useSafeCallback], with its component and options
    fixed, writes at most three warnings over any number of renders,
    whatever the callbacks and dependency lists, as long as the store is
    not reset; each of them stays on the console.  In production a render
    changes nothing. *)
Theorem useSafeCallback_at_most_three
    (dev : bool) (stack_name : string) (options : option SafeCallback.Options)
    (renders : list (heap * value * list value)) (st : SafeCallback.State) :
  let st' := SafeCallback.run dev stack_name options renders st in
  length (console (SafeCallback.warns st'))
  ≤ length (console (SafeCallback.warns st)) + 3
  ∧ console (SafeCallback.warns st) `prefix_of` console (SafeCallback.warns st')
  ∧ SafeCallback.run false stack_name options renders st = st.
Proof.
  set (K := SafeCallback.keys stack_name options).
  assert (∀ d,
    let st' := SafeCallback.run d stack_name options renders st in
    length (console (SafeCallback.warns st'))
    + size (K ∖ warnedKeys (SafeCallback.warns st'))
    = length (console (SafeCallback.warns st))
      + size (K ∖ warnedKeys (SafeCallback.warns st))
    ∧ console (SafeCallback.warns st)
      `prefix_of` console (SafeCallback.warns st')) as Hrun.
  { intros d. induction renders as [|r renders IH] using rev_ind; [done|].
    rewrite useSafeCallback_run_snoc. cbn zeta in *.
    destruct IH as [IH1 IH2].
    destruct (useSafeCallback_measure d stack_name r.1.1 r.1.2 r.2 options
      (SafeCallback.run d stack_name options renders st)) as [H1 H2].
    fold K in H1. split; [lia | by etrans]. }
  intros st'. destruct (Hrun dev) as [H1 H2]. fold st' in H1, H2.
  split_and!; [|done|].
  - assert (size (K ∖ warnedKeys (SafeCallback.warns st)) ≤ size K) as Hle.
    { apply subseteq_size. intros x [? _]%elem_of_difference. done. }
    pose proof (size_three
      (createWarningKey (SafeCallback.hookName_of options) "stale-closure"
         (Some stack_name))
      (createWarningKey (SafeCallback.hookName_of options) "unstable-deps"
         (Some stack_name))
      (createWarningKey (SafeCallback.hookName_of options) "excessive-changes"
         (Some stack_name))) as H3.
    fold (SafeCallback.keys stack_name options) in H3. fold K in H3. lia.
  - apply useSafeCallback_run_production.
Qed.


Lemma strict_equal_true a b :
  strict_equal a b = true →
  a = b ∨ ∃ s1 s2, a = VNumber (Zero s1) ∧ b = VNumber (Zero s2).
Proof.
  destruct a as [| | |x| | | | |], b as [| | |y| | | | |];
    cbv beta iota delta [strict_equal];
    try (intros ?%bool_decide_eq_true; by left).
  destruct x, y; cbv beta iota delta [number_strict_equal];
    try discriminate; try (intros ?%bool_decide_eq_true; left; congruence).
  intros _. right. eauto.
Qed.

Lemma strict_equal_congr a b c :
  strict_equal a b = true → strict_equal a c = strict_equal b c.
Proof.
  intros [->|(s1 & s2 & -> & ->)]%strict_equal_true; [done|].
  destruct c as [| | |[]| | | | |]; try done.
Qed.

Lemma tracker_run_count dev tracker renderCount callbacks :
  CallbackTracker.changeCount (tracker_run dev tracker renderCount callbacks).2
  = (CallbackTracker.changeCount tracker
     + identity_changes (CallbackTracker.prevCallback tracker) callbacks)%Z.
Proof.
  revert tracker renderCount.
  induction callbacks as [|[cb deps] callbacks IH]; intros tracker rc.
  - simpl. lia.
  - cbn [tracker_run identity_changes]. unfold updateCallbackTracker.
    set (t := {| CallbackTracker.changeCount := _ |}).
    specialize (IH t (rc + 1)%Z).
    destruct (tracker_run dev t (rc + 1)%Z callbacks) as [rs t'].
    cbn [snd] in *. rewrite IH. subst t.
    cbn [CallbackTracker.changeCount CallbackTracker.prevCallback].
    destruct (strict_equal (CallbackTracker.prevCallback tracker) cb);
      simpl; lia.
Qed.

(** What one development render does to the refs. *)
Lemma useSafeCallback_refs stack_name h callback deps options st :
  let st' :=
    SafeCallback.useSafeCallback true stack_name h callback deps options st in
  SafeCallback.countRef st' = (SafeCallback.countRef st + 1)%Z
  ∧ SafeCallback.previousRef st' = Some deps
  ∧ SafeCallback.changeCountRef st'
    = (if strict_equal (SafeCallback.prevCallbackRef st) callback
       then SafeCallback.changeCountRef st
       else SafeCallback.changeCountRef st + 1)%Z
  ∧ SafeCallback.prevCallbackRef st'
    = (if strict_equal (SafeCallback.prevCallbackRef st) callback
       then SafeCallback.prevCallbackRef st
       else callback).
Proof.
  cbn zeta. unfold SafeCallback.useSafeCallback.
  cbn [negb useComponentName useRenderCount usePrevious].
  by destruct (strict_equal _ callback).
Qed.

Lemma useSafeCallback_run_tracker stack_name options dev' renders st t rc :
  SafeCallback.changeCountRef st = CallbackTracker.changeCount t →
  (∀ c, strict_equal (SafeCallback.prevCallbackRef st) c
        = strict_equal (CallbackTracker.prevCallback t) c) →
  SafeCallback.changeCountRef
    (SafeCallback.run true stack_name options renders st)
  = CallbackTracker.changeCount
      (tracker_run dev' t rc ((λ r, (r.1.2, r.2)) <$> renders)).2.
Proof.
  revert st t rc.
  induction renders as [|[[h cb] deps] renders IH]; intros st t rc Hc Hp;
    [done|].
  cbn [fmap list_fmap tracker_run fst snd]. unfold updateCallbackTracker.
  set (t' := {| CallbackTracker.changeCount := _ |}).
  unfold SafeCallback.run. cbn [foldl fst snd].
  fold (SafeCallback.run true stack_name options renders).
  set (st' := SafeCallback.useSafeCallback _ _ _ _ _ _ _).
  specialize (IH st' t' (rc + 1)%Z).
  destruct (tracker_run dev' t' (rc + 1)%Z _) as [rs tfinal].
  cbn [snd] in *. apply IH.
  - subst st' t'.
    rewrite (proj1 (proj2 (proj2 (useSafeCallback_refs _ _ _ _ _ _)))).
    cbn [CallbackTracker.changeCount]. rewrite Hc, (Hp cb).
    destruct (strict_equal _ cb); cbn [negb]; done.
  - intros c. subst st' t'.
    rewrite (proj2 (proj2 (proj2 (useSafeCallback_refs _ _ _ _ _ _)))).
    cbn [CallbackTracker.prevCallback].
    destruct (strict_equal (SafeCallback.prevCallbackRef st) cb) eqn:E;
      [|done].
    by apply strict_equal_congr.
Qed.

Lemma useSafeCallback_run_refs stack_name options renders st :
  let st' := SafeCallback.run true stack_name options renders st in
  SafeCallback.countRef st'
  = (SafeCallback.countRef st + Z.of_nat (length renders))%Z
  ∧ SafeCallback.previousRef st'
    = from_option (λ r, Some r.2) (SafeCallback.previousRef st) (last renders).
Proof.
  induction renders as [|r renders IH] using rev_ind;
    [cbn; split; [lia | done]|].
  cbn zeta in *. rewrite useSafeCallback_run_snoc, last_snoc, length_app.
  destruct IH as [IH1 _].
  rewrite (proj1 (useSafeCallback_refs _ _ _ _ _ _)), IH1.
  rewrite (proj1 (proj2 (useSafeCallback_refs _ _ _ _ _ _))).
  split; [simpl; lia | done].
Qed.

(** In development, after any renders from its first state,
    [useSafeCallback] has counted the renders and holds the dependency list
    of the last one; its change count is the one [updateCallbackTracker]
    computes on the same callbacks, at least 1 once it has rendered and at
    most the number of renders. *)
Theorem useSafeCallback_tracks_like_tracker
    (stack_name : string) (options : option SafeCallback.Options)
    (renders : list (heap * value * list value)) (w : WarnState) :
  let st' :=
    SafeCallback.run true stack_name options renders
      (SafeCallback.first_state w) in
  let callbacks := (λ r, (r.1.2, r.2)) <$> renders in
  SafeCallback.countRef st' = Z.of_nat (length renders)
  ∧ SafeCallback.changeCountRef st'
    = CallbackTracker.changeCount
        (tracker_run true createCallbackTracker 1 callbacks).2
  ∧ SafeCallback.previousRef st' = snd <$> last renders
  ∧ (0 ≤ SafeCallback.changeCountRef st' ≤ Z.of_nat (length renders))%Z.
Proof.
  intros st' callbacks.
  destruct (useSafeCallback_run_refs stack_name options renders
    (SafeCallback.first_state w)) as [H1 H2].
  fold st' in H1, H2.
  pose proof (useSafeCallback_run_tracker stack_name options true renders
    (SafeCallback.first_state w) createCallbackTracker 1 eq_refl
    (λ _, eq_refl)) as H3.
  fold st' callbacks in H3.
  split_and!.
  - rewrite H1. simpl. lia.
  - done.
  - rewrite H2. by destruct (last renders).
  - rewrite H3, tracker_run_count. simpl.
    pose proof (identity_changes_bounds VUndefined callbacks). lia.
  - rewrite H3, tracker_run_count. simpl.
    pose proof (identity_changes_bounds VUndefined callbacks) as Hb.
    subst callbacks. rewrite length_fmap in Hb. lia.
Qed.

Example useSafeCallback_four_fresh_callbacks :
  length
    (console
       (SafeCallback.warns
          (SafeCallback.run true "List" None
             [(∅, VFunction 1, []); (∅, VFunction 2, []);
              (∅, VFunction 3, []); (∅, VFunction 4, [])]
             (SafeCallback.first_state initial_WarnState)))) = 1.
Proof. vm_compute. reflexivity. Qed.

(** ** [useSafeRef] *)

(** A render of [useSafeRef] writes a warning exactly when it runs in
    development, the option [warnOnNullInit] is [true], it is the first
    render, the initial value is [null] or [undefined] and the key has not
    been warned; so with the default options it never writes.  In
    development every render counts; in production nothing changes. *)
Theorem useSafeRef_warns_iff
    (dev : bool) (stack_name : string) (initialValue : value)
    (options : option SafeRef.Options) (st : Z * WarnState) :
  let st' := SafeRef.useSafeRef dev stack_name initialValue options st in
  let key :=
    createWarningKey (default "useSafeRef" (options ≫= SafeRef.name))
      "null-init" (Some stack_name) in
  (dispatched st.2 st'.2 = true
   ↔ dev = true
     ∧ options ≫= SafeRef.warnOnNullInit = Some true
     ∧ st.1 = 0%Z
     ∧ (initialValue = VNull ∨ initialValue = VUndefined)
     ∧ key ∉ warnedKeys st.2)
  ∧ (dispatched st.2 st'.2 = true →
     console st'.2
     = console st.2
       ++ [SafeRef.null_init_message stack_name
             (default "useSafeRef" (options ≫= SafeRef.name))])
  ∧ (dev = true → st'.1 = (st.1 + 1)%Z)
  ∧ (dev = false → st' = st).
Proof.
  intros st' key. subst st'. unfold SafeRef.useSafeRef.
  destruct st as [count w]. cbn [fst snd].
  assert (dispatched w w = false) as Hsame.
  { unfold dispatched. by rewrite Nat.eqb_refl. }
  destruct dev; cbn [negb useComponentName useRenderCount fst snd];
    [|rewrite Hsame; split_and!; try done; split; [done | by intros [? _]]].
  assert (default false (options ≫= SafeRef.warnOnNullInit) = true
          ↔ options ≫= SafeRef.warnOnNullInit = Some true) as Hopt.
  { destruct (options ≫= SafeRef.warnOnNullInit) as [[]|]; simpl;
      split; congruence. }
  assert (loose_equal_null initialValue = true
          ↔ initialValue = VNull ∨ initialValue = VUndefined) as Hnull.
  { destruct initialValue; simpl; split; try done; try (by auto);
      intros [?|?]; done. }
  destruct (default false _ && (count + 1 =? 1)%Z
            && loose_equal_null initialValue) eqn:Ec.
  - apply andb_true_iff in Ec as [[Ho Hc%Z.eqb_eq]%andb_true_iff Hn].
    fold key. destruct (decide (key ∈ warnedKeys w)) as [Hk|Hk].
    + rewrite warnOnce_warned by done. rewrite Hsame.
      split_and!; try done. split; [done | by intros (_ & _ & _ & _ & ?)].
    + rewrite warnOnce_fresh by done. cbn [console].
      assert (dispatched w
        {| warnedKeys := {[key]} ∪ warnedKeys w;
           console := console w ++ [SafeRef.null_init_message stack_name
             (default "useSafeRef" (options ≫= SafeRef.name))] |} = true)
        as ->.
      { apply dispatched_true_iff. cbn [console]. rewrite length_app.
        simpl. lia. }
      split_and!; try done. split; [|done]. intros _.
      split_and!; [done | by apply Hopt | lia | by apply Hnull | done].
  - rewrite Hsame. split_and!; try done. split; [done|].
    intros (_ & Ho%Hopt & Hc & Hn%Hnull & _).
    rewrite Ho, Hn, (proj2 (Z.eqb_eq _ _)) in Ec by lia. done.
Qed.

Lemma useSafeRef_warns_iff_witness :
  console
    (SafeRef.useSafeRef true "Input" VNull
       (Some {| SafeRef.name := None; SafeRef.warnOnNullInit := Some true |})
       (0%Z, initial_WarnState)).2
  = console initial_WarnState
    ++ [SafeRef.null_init_message "Input" "useSafeRef"].
Proof.
  apply (proj1 (proj2 (useSafeRef_warns_iff true "Input" VNull
    (Some {| SafeRef.name := None; SafeRef.warnOnNullInit := Some true |})
    (0%Z, initial_WarnState)))).
  reflexivity.
Defined.

(** ** [useSafeEffect] *)

(** In development, unless [warnOnChangingDeps] is switched off, every
    render of [useSafeEffect] whose dependency list differs in length from
    the one of the render before writes the length warning, whether or not
    it was written before: this warning is not deduplicated.  At most one
    more warning follows it in the same render. *)
Theorem useSafeEffect_length_warning_repeats
    (stack_name : string) (h : heap) (deps previous : list value)
    (options : option SafeEffect.Options) (st : SafeEffect.State) :
  SafeEffect.previousRef st = Some previous →
  options ≫= SafeEffect.warnOnChangingDeps ≠ Some false →
  length deps ≠ length previous →
  let st' :=
    SafeEffect.useSafeEffect true stack_name h (Some deps) options st in
  let text :=
    SafeEffect.length_message stack_name
      (default "useSafeEffect" (options ≫= SafeEffect.name))
      (trackDependencyChanges (Some deps) (Some previous)) in
  (∃ rest,
     console (SafeEffect.warns st')
     = console (SafeEffect.warns st) ++ text :: rest
     ∧ length rest ≤ 1)
  ∧ SafeEffect.previousRef st' = Some deps
  ∧ SafeEffect.countRef st' = (SafeEffect.countRef st + 1)%Z.
Proof.
  intros Hprev Hopt Hlen st' text. subst st'.
  unfold SafeEffect.useSafeEffect.
  cbn [negb useComponentName useRenderCount usePrevious].
  rewrite Hprev. cbn [SafeEffect.warns SafeEffect.previousRef
    SafeEffect.countRef].
  rewrite (bool_decide_eq_true_2 (is_Some (Some deps))) by eauto.
  cbn [negb andb].
  assert (default true (options ≫= SafeEffect.warnOnChangingDeps) = true)
    as ->.
  { destruct (options ≫= SafeEffect.warnOnChangingDeps) as [[]|]; done. }
  assert (lengthChanged (trackDependencyChanges (Some deps) (Some previous))
          = true) as ->.
  { cbn [trackDependencyChanges lengthChanged].
    by rewrite (proj2 (Nat.eqb_neq _ _)). }
  fold text. split; [|done].
  unfold warn at 1 2. cbn [negb].
  destruct ((0 <? length _) && _).
  - unfold warnOnce. cbn [negb]. case_bool_decide.
    + exists []. split; [done | simpl; lia].
    + eexists [_]. cbn [console_warn console]. split; [|simpl; lia].
      by rewrite <- app_assoc.
  - exists []. split; [done | simpl; lia].
Qed.

Lemma useSafeEffect_length_warning_repeats_witness :
  ∃ rest,
    console
      (SafeEffect.warns
         (SafeEffect.useSafeEffect true "Chat" ∅ (Some [VNull; VNull]) None
            {| SafeEffect.countRef := 5;
               SafeEffect.previousRef := Some [VNull];
               SafeEffect.warns := initial_WarnState |}))
    = console initial_WarnState
      ++ SafeEffect.length_message "Chat" "useSafeEffect"
           (trackDependencyChanges (Some [VNull; VNull]) (Some [VNull]))
         :: rest
    ∧ length rest ≤ 1.
Proof.
  apply (useSafeEffect_length_warning_repeats "Chat" ∅ [VNull; VNull] [VNull]
    None
    {| SafeEffect.countRef := 5;
       SafeEffect.previousRef := Some [VNull];
       SafeEffect.warns := initial_WarnState |}).
  - reflexivity.
  - discriminate.
  - discriminate.
Defined.

(** A render of [useSafeEffect] without a dependency list makes no other
    check than the one for the missing list, which writes its warning in
    the first render only, unless [warnOnMissingDeps] is switched off or the
    key was warned before. *)
Theorem useSafeEffect_no_deps
    (stack_name : string) (h : heap) (options : option SafeEffect.Options)
    (st : SafeEffect.State) :
  let st' := SafeEffect.useSafeEffect true stack_name h None options st in
  let hookName := default "useSafeEffect" (options ≫= SafeEffect.name) in
  let key := createWarningKey hookName "no-deps" (Some stack_name) in
  SafeEffect.warns st'
  = (if bool_decide (options ≫= SafeEffect.warnOnMissingDeps ≠ Some false)
        && bool_decide (SafeEffect.countRef st = 0%Z)
        && bool_decide (key ∉ warnedKeys (SafeEffect.warns st))
     then
       {| warnedKeys := {[key]} ∪ warnedKeys (SafeEffect.warns st);
          console :=
            console (SafeEffect.warns st)
            ++ [SafeEffect.no_deps_message stack_name hookName] |}
     else SafeEffect.warns st)
  ∧ SafeEffect.previousRef st' = None.
Proof.
  intros st' hookName key. subst st'. unfold SafeEffect.useSafeEffect.
  cbn [negb useComponentName useRenderCount usePrevious].
  cbn [SafeEffect.warns SafeEffect.previousRef].
  rewrite (bool_decide_eq_false_2 (is_Some None)) by (by intros [? ?]).
  cbn [negb andb]. fold hookName key. split; [|done].
  assert (∀ w : WarnState,
    match SafeEffect.previousRef st with
    | Some _ => w
    | None => w
    end = w) as Hmatch by (by destruct (SafeEffect.previousRef st)).
  rewrite Hmatch.
  destruct (options ≫= SafeEffect.warnOnMissingDeps) as [[]|];
    cbn [default from_option andb];
    rewrite ?(bool_decide_eq_true_2 (_ ≠ Some false)) by done;
    rewrite ?(bool_decide_eq_false_2 (Some false ≠ Some false))
      by (by intros ?);
    cbn [andb]; try done.
  all: destruct (Z.eqb_spec (SafeEffect.countRef st + 1) 1) as [Hc|Hc].
  all: try (rewrite (bool_decide_eq_false_2 (SafeEffect.countRef st = 0%Z))
              by lia; done).
  all: rewrite (bool_decide_eq_true_2 (SafeEffect.countRef st = 0%Z)) by lia.
  all: cbn [andb]; unfold warnOnce; cbn [negb].
  all: destruct (decide (key ∈ warnedKeys (SafeEffect.warns st))).
  all: try (rewrite bool_decide_eq_true_2 by done;
            by rewrite bool_decide_eq_false_2 by (by intros ?)).
  all: rewrite bool_decide_eq_false_2 by done.
  all: by rewrite bool_decide_eq_true_2 by done.
Qed.

(** ** [useSafeMemo], the render *)

Lemma useSafeMemo_measure dev stack_name h deps options recomputes st :
  let K := SafeMemoRender.keys stack_name options in
  let st' :=
    SafeMemoRender.useSafeMemo dev stack_name h deps options recomputes st in
  length (console (SafeMemo.warns (SafeMemoRender.memo st')))
  + size (K ∖ warnedKeys (SafeMemo.warns (SafeMemoRender.memo st')))
  = length (console (SafeMemo.warns (SafeMemoRender.memo st)))
    + size (K ∖ warnedKeys (SafeMemo.warns (SafeMemoRender.memo st))).
Proof.
  intros K st'. subst st'. unfold SafeMemoRender.useSafeMemo.
  destruct dev; [|done].
  cbn [negb useComponentName useRenderCount usePrevious].
  assert (createWarningKey (SafeMemo.hookName_of options) "deps-length"
            (Some stack_name) ∈ K) as H1 by (apply elem_of_three; auto).
  assert (createWarningKey (SafeMemo.hookName_of options) "unstable-deps"
            (Some stack_name) ∈ K) as H2 by (apply elem_of_three; auto).
  assert (createWarningKey (SafeMemo.hookName_of options)
            "excessive-recompute" (Some stack_name) ∈ K) as H3
    by (apply elem_of_three; auto).
  cbn [SafeMemoRender.memo].
  destruct recomputes.
  - unfold SafeMemo.wrappedFactory.
    cbn [SafeMemo.warns SafeMemo.recomputeCountRef].
    rewrite cond_warnOnce_measure by done.
    destruct (SafeMemoRender.previousRef st) as [prev|]; [|done].
    by rewrite !cond_warnOnce_measure by done.
  - cbn [SafeMemo.warns].
    destruct (SafeMemoRender.previousRef st) as [prev|]; [|done].
    by rewrite !cond_warnOnce_measure by done.
Qed.

Lemma useSafeMemo_run_snoc dev stack_name options renders r st :
  SafeMemoRender.run dev stack_name options (renders ++ [r]) st
  = SafeMemoRender.useSafeMemo dev stack_name r.1.1 r.1.2 options r.2
      (SafeMemoRender.run dev stack_name options renders st).
Proof. unfold SafeMemoRender.run. by rewrite foldl_app. Qed.

Lemma useSafeMemo_recomputes stack_name h deps options recomputes st :
  SafeMemo.recomputeCountRef
    (SafeMemoRender.memo
       (SafeMemoRender.useSafeMemo true stack_name h deps options recomputes
          st))
  = (SafeMemo.recomputeCountRef (SafeMemoRender.memo st)
     + if recomputes then 1 else 0)%Z
  ∧ SafeMemoRender.countRef
      (SafeMemoRender.useSafeMemo true stack_name h deps options recomputes st)
    = (SafeMemoRender.countRef st + 1)%Z.
Proof.
  unfold SafeMemoRender.useSafeMemo.
  cbn [negb useComponentName useRenderCount usePrevious
       SafeMemoRender.memo SafeMemoRender.countRef].
  split; [|done].
  destruct recomputes; [|cbn [SafeMemo.recomputeCountRef]; lia].
  by rewrite wrappedFactory_count.
Qed.

(** One call site of [useSafeMemo], with its component and options fixed,
    writes at most three warnings over any number of renders, whatever the
    dependency lists and whenever the factory runs, as long as the store is
    not reset.  In development the recompute count is the number of renders
    in which the factory ran, so it never exceeds the render count. *)
Theorem useSafeMemo_at_most_three
    (dev : bool) (stack_name : string) (options : option SafeMemo.Options)
    (renders : list (heap * list value * bool)) (st : SafeMemoRender.State) :
  let st' := SafeMemoRender.run dev stack_name options renders st in
  length (console (SafeMemo.warns (SafeMemoRender.memo st')))
  ≤ length (console (SafeMemo.warns (SafeMemoRender.memo st))) + 3
  ∧ (dev = true →
     SafeMemoRender.countRef st'
     = (SafeMemoRender.countRef st + Z.of_nat (length renders))%Z
     ∧ SafeMemo.recomputeCountRef (SafeMemoRender.memo st')
       = (SafeMemo.recomputeCountRef (SafeMemoRender.memo st)
          + Z.of_nat (length (filter (λ r, r.2 = true) renders)))%Z)
  ∧ (dev = false → st' = st).
Proof.
  set (K := SafeMemoRender.keys stack_name options).
  intros st'. split_and!.
  - assert (length (console (SafeMemo.warns (SafeMemoRender.memo st')))
      + size (K ∖ warnedKeys (SafeMemo.warns (SafeMemoRender.memo st')))
      = length (console (SafeMemo.warns (SafeMemoRender.memo st)))
        + size (K ∖ warnedKeys (SafeMemo.warns (SafeMemoRender.memo st))))
      as Hrun.
    { subst st'. induction renders as [|r renders IH] using rev_ind; [done|].
      rewrite useSafeMemo_run_snoc.
      pose proof (useSafeMemo_measure dev stack_name r.1.1 r.1.2 options r.2
        (SafeMemoRender.run dev stack_name options renders st)) as H.
      cbn zeta in H. fold K in H. lia. }
    assert (size (K ∖ warnedKeys (SafeMemo.warns (SafeMemoRender.memo st)))
            ≤ size K) as Hle.
    { apply subseteq_size. intros x [? _]%elem_of_difference. done. }
    pose proof (size_three
      (createWarningKey (SafeMemo.hookName_of options) "deps-length"
         (Some stack_name))
      (createWarningKey (SafeMemo.hookName_of options) "unstable-deps"
         (Some stack_name))
      (createWarningKey (SafeMemo.hookName_of options) "excessive-recompute"
         (Some stack_name))) as H3.
    fold (SafeMemoRender.keys stack_name options) in H3. fold K in H3. lia.
  - intros ->. subst st'.
    induction renders as [|[[h deps] recomputes] renders IH] using rev_ind;
      [simpl; split; lia|].
    rewrite useSafeMemo_run_snoc, filter_app, !length_app.
    destruct IH as [IH1 IH2].
    destruct (useSafeMemo_recomputes stack_name h deps options recomputes
      (SafeMemoRender.run true stack_name options renders st)) as [H1 H2].
    cbn [fst snd]. rewrite H1, H2, IH1, IH2.
    rewrite filter_cons, filter_nil. cbn [snd].
    destruct recomputes; [rewrite decide_True by done
                         |rewrite decide_False by done]; simpl; split; lia.
  - intros ->. subst st'.
    induction renders as [|r renders IH] using rev_ind; [done|].
    by rewrite useSafeMemo_run_snoc, IH.
Qed.

Lemma useSafeMemo_at_most_three_witness :
  let st :=
    {| SafeMemoRender.countRef := 0; SafeMemoRender.previousRef := None;
       SafeMemoRender.memo :=
         {| SafeMemo.recomputeCountRef := 0;
            SafeMemo.warns := initial_WarnState |} |} in
  let renders : list (heap * list value * bool) :=
    [(∅, [VNull], true); (∅, [VNull; VNull], false)] in
  SafeMemo.recomputeCountRef
    (SafeMemoRender.memo (SafeMemoRender.run true "List" None renders st))
  = (0 + Z.of_nat (length (filter (λ r, r.2 = true) renders)))%Z.
Proof.
  intros st renders.
  apply (proj1 (proj2 (useSafeMemo_at_most_three true "List" None renders st))
    eq_refl).
Defined.

(** ** Updates after unmount, over many calls *)

(** In development the warning for an update after unmount is not
    deduplicated: of any number of calls of the setter made while the
    component is unmounted none reaches React and each writes the warning
    once more.  While it is mounted all of them reach React, in order, and
    nothing is written. *)
Theorem safeSetState_run
    (componentName hookName : string) (values : list value)
    (st : HookInstance) :
  let st' :=
    foldl
      (λ st v, SafeState.safeSetState true componentName hookName v st)
      st values in
  (isMountedRef st = false →
   primitive_calls st' = primitive_calls st
   ∧ console (warns st')
     = console (warns st)
       ++ replicate (length values)
            (SafeState.unmounted_message componentName hookName)
   ∧ isMountedRef st' = false)
  ∧ (isMountedRef st = true →
     primitive_calls st' = primitive_calls st ++ values
     ∧ warns st' = warns st
     ∧ isMountedRef st' = true).
Proof.
  cbn zeta. split; intros Hm.
  - revert st Hm. induction values as [|v values IH]; intros st Hm.
    + cbn [foldl length replicate]. by rewrite app_nil_r.
    + cbn [foldl length replicate]. unfold SafeState.safeSetState at 2 4 6.
      rewrite Hm. cbn [negb].
      destruct (IH (warn_in true
        (SafeState.unmounted_message componentName hookName) st) Hm)
        as (H1 & H2 & H3).
      rewrite H1, H2, H3. split_and!; [done | | done].
      unfold warn_in, warn, console_warn. cbn [negb warns console].
      by rewrite <- app_assoc.
  - revert st Hm. induction values as [|v values IH]; intros st Hm.
    + cbn [foldl]. by rewrite app_nil_r.
    + cbn [foldl]. unfold SafeState.safeSetState at 2 4 6.
      rewrite Hm. cbn [negb].
      destruct (IH (primitive_call v st) Hm) as (H1 & H2 & H3).
      rewrite H1, H2, H3. split_and!; [|done|done].
      cbn [primitive_call primitive_calls]. by rewrite <- app_assoc.
Qed.

Lemma safeSetState_run_witness :
  let st := effect_unmount (first_render initial_WarnState) in
  console
    (warns
       (foldl (λ st v, SafeState.safeSetState true "Chat" "useSafeState" v st)
          st [VNull; VNull]))
  = console (warns st)
    ++ replicate 2 (SafeState.unmounted_message "Chat" "useSafeState").
Proof.
  intros st.
  pose proof (safeSetState_run "Chat" "useSafeState" [VNull; VNull] st)
    as [H _].
  exact (proj1 (proj2 (H eq_refl))).
Defined.

Lemma tracker_run_changeCount_witness :
  CallbackTracker.prevCallback
    (tracker_run true createCallbackTracker 1
       [(VFunction 1, []); (VFunction 2, [VNull])]).2 = VFunction 2.
Proof.
  apply (proj2 (proj2 (tracker_run_changeCount true createCallbackTracker 1
    [(VFunction 1, []); (VFunction 2, [VNull])])) (VFunction 2) [VNull]).
  reflexivity.
Defined.
